(** * Verification of the script-binding utilities of [js_util.hpp]

    The header glues native C++ classes to a JavaScriptCore context: adapter
    macros that turn C++ exceptions into script exceptions, validated
    conversions of script values, the finalizer of wrapper objects and the
    marshaller from a positional array to a dictionary keyed by schema
    property names.

    The development has three layers.
    - The C++ side: the standard exception classes the header throws and
      catches, the outcome of a call, string-to-[long] extraction and
      [delete].
    - The engine side: a model of the part of the JavaScriptCore C API the
      header calls (values, objects with property slots and private data).
    - The header itself, function by function, followed by the theorems. *)

From Stdlib Require Import ZArith Lia Ascii String List.
From Stdlib Require Import Floats.SpecFloat.
From stdpp Require Import base option list strings pretty gmap.

Local Open Scope Z_scope.

(* ===================================================================== *)
(** * Script values *)
(* ===================================================================== *)

(** [JSObjectRef]: a reference to an object of the context, here the
    position of the object in the context's object table. *)
Abbreviation JSObjectRef := nat.

(** The dynamic kinds of a script value the header distinguishes.  Numbers
    are IEEE doubles, kept as [spec_float]. *)
Inductive JSValue : Type :=
| JSUndefined
| JSNull
| JSBoolean (b : bool)
| JSNumber (d : spec_float)
| JSString (s : string)
| JSObject (o : JSObjectRef).

(** [JSValueRef]: a pointer to a value that may be [NULL]. *)
Definition JSValueRef := option JSValue.
Definition NULL : JSValueRef := None.

(** What a call into the engine reports: a result, or a script exception
    left in the [JSValueRef *exception] argument. *)
Inductive ScriptResult (A : Type) : Type :=
| Normal (a : A)
| Raised (exception : JSValue).
Arguments Normal {A} a.
Arguments Raised {A} exception.

(* ===================================================================== *)
(** * The C++ side *)
(* ===================================================================== *)

(** The exception classes that occur in the header.  [RJSException] is the
    class of lines 144-152: a [std::runtime_error] whose message is the
    rendering of a script exception and which keeps that exception.
    [std_exception] stands for any other class derived from
    [std::exception] that a native handler may throw.  A throw of anything
    else passes every [catch] clause of the header and is not modelled. *)
Inductive NativeException : Type :=
| invalid_argument (what_arg : string)
| out_of_range (what_arg : string)
| runtime_error (what_arg : string)
| RJSException (what_arg : string) (m_jsException : JSValue)
| std_exception (what_arg : string).

Definition what (e : NativeException) : string :=
  match e with
  | invalid_argument m | out_of_range m | runtime_error m
  | RJSException m _ | std_exception m => m
  end.

(** How a C++ call ends: it returns, it throws, or it has no defined
    behaviour (deleting a dangling pointer, converting a double that does
    not fit the integer type). *)
Inductive Completion (A : Type) : Type :=
| Returns (a : A)
| Throws (e : NativeException)
| UndefinedBehaviour.
Arguments Returns {A} a.
Arguments Throws {A} e.
Arguments UndefinedBehaviour {A}.

(** [message ?: "..."] on a [const char *] that defaults to [NULL]. *)
Definition elvis (message : option string) (fallback : string) : string :=
  match message with
  | Some m => m
  | None => fallback
  end.

(** ** Formatted extraction of a [long] ([iss >> value])

    The stream skips leading white space, reads an optional sign and then
    decimal digits, and stops at the first character that cannot continue
    the number.  It fails when no digit was read and when the number does
    not fit a [long]; [long] is taken as 64 bits wide. *)
Definition LONG_MAX : Z := 2 ^ 63 - 1.
Definition LONG_MIN : Z := - 2 ^ 63.
Definition SIZE_MAX : Z := 2 ^ 64 - 1.
Definition UINT_MAX : Z := 2 ^ 32 - 1.

Definition isspace (c : ascii) : bool :=
  let n := nat_of_ascii c in
  (Nat.eqb n 32 || (Nat.leb 9 n && Nat.leb n 13))%bool.

Definition digit_value (c : ascii) : option Z :=
  let n := Z.of_nat (nat_of_ascii c) in
  if ((48 <=? n) && (n <=? 57))%bool then Some (n - 48) else None.

Fixpoint skip_ws (s : string) : string :=
  match s with
  | String c rest => if isspace c then skip_ws rest else s
  | EmptyString => s
  end.

(** Digits are accumulated most significant first; [seen] records that at
    least one was read. *)
Fixpoint read_digits (s : string) (acc : Z) (seen : bool) : option Z :=
  match s with
  | String c rest =>
      match digit_value c with
      | Some d => read_digits rest (10 * acc + d) true
      | None => if seen then Some acc else None
      end
  | EmptyString => if seen then Some acc else None
  end.

Definition read_sign (s : string) : bool * string :=
  match s with
  | String "-"%char rest => (true, rest)
  | String "+"%char rest => (false, rest)
  | _ => (false, s)
  end.

(** [None] is the stream's fail state. *)
Definition extract_long (s : string) : option Z :=
  let '(negative, digits) := read_sign (skip_ws s) in
  match read_digits digits 0 false with
  | Some magnitude =>
      let value := if negative then - magnitude else magnitude in
      if ((LONG_MIN <=? value) && (value <=? LONG_MAX))%bool
      then Some value else None
  | None => None
  end.

(** [std::string::c_str] read as a C string: the characters before the
    first NUL. *)
Fixpoint c_str (s : string) : string :=
  match s with
  | String c rest => if Ascii.eqb c "000"%char then "" else String c (c_str rest)
  | EmptyString => ""
  end.

(** [stot<long>] (lines 270-279). *)
Definition stot (s : string) : Completion Z :=
  match extract_long s with
  | Some value => Returns value
  | None => Throws (invalid_argument ("Cannot convert string '" +:+ s +:+ "'"))
  end.

(** [RJSValidatedPositiveIndex] (lines 281-287).  The [long] is returned as
    a [size_t]; the conversion is reduction modulo [2^64]. *)
Definition RJSValidatedPositiveIndex (indexStr : string) : Completion Z :=
  match stot indexStr with
  | Returns index =>
      if index <? 0
      then Throws (out_of_range
                     ("Index " +:+ indexStr +:+ " cannot be less than zero."))
      else Returns (index mod (SIZE_MAX + 1))
  | Throws e => Throws e
  | UndefinedBehaviour => UndefinedBehaviour
  end.

(** [RJSValidateArgumentCount] (lines 126-130). *)
Definition RJSValidateArgumentCount
    (argumentCount expected : Z) (message : option string) : Completion unit :=
  if negb (argumentCount =? expected)
  then Throws (invalid_argument (elvis message "Invalid arguments"))
  else Returns tt.

(** The implicit conversions between [bool] and [double]. *)
Definition double_of_bool (b : bool) : spec_float :=
  if b then S754_finite false 1 0 else S754_zero false.

Definition bool_of_double (d : spec_float) : bool :=
  match d with
  | S754_zero _ => false
  | _ => true
  end.

Definition isnan (d : spec_float) : bool :=
  match d with
  | S754_nan => true
  | _ => false
  end.

(** Conversion of a double to [size_t]: the fraction is dropped, and the
    behaviour is undefined ([None]) when the truncated value does not fit. *)
Definition double_to_size_t (d : spec_float) : option Z :=
  match d with
  | S754_zero _ => Some 0
  | S754_finite negative m e =>
      let magnitude :=
        if 0 <=? e then Z.pos m * 2 ^ e else Z.pos m / 2 ^ (- e) in
      let truncated := if negative then - magnitude else magnitude in
      if ((0 <=? truncated) && (truncated <=? SIZE_MAX))%bool
      then Some truncated else None
  | S754_infinity _ | S754_nan => None
  end.

(* ===================================================================== *)
(** * The engine side: objects and the context *)
(* ===================================================================== *)

(** A property slot holds a value, or is an accessor whose script code
    raises.  Script code run by the engine is summarised by its outcome. *)
Inductive Slot : Type :=
| Data (v : JSValue)
| Accessor (raises : JSValue).

(** Error objects carry the raw script exception they were built from, if
    any; every other object is ordinary for the purposes of the header. *)
Inductive ObjectKind : Type :=
| OrdinaryObject
| ErrorObject (wrapped : option JSValue).

(** An object: its properties in creation order, the private pointer of
    [JSObjectGetPrivate] (0 is [NULL]), and the outcome of converting the
    object to a number and to a string. *)
Record JSObjectData : Type := {
  kind : ObjectKind;
  slots : list (string * Slot);
  private_data : Z;
  to_number : ScriptResult spec_float;
  to_string : string
}.

(** The state a call runs in: the objects of the [JSContextRef] and the
    set of native pointers obtained from [new] and not yet deleted. *)
Record World : Type := {
  objects : list JSObjectData;
  allocated : gset Z
}.

Definition set_objects (ctx : World) (os : list JSObjectData) : World :=
  {| objects := os; allocated := allocated ctx |}.

(** Native code: state passing, with the state kept when a call throws. *)
Definition Native (A : Type) : Type := World -> Completion A * World.

Definition ret {A} (a : A) : Native A := fun ctx => (Returns a, ctx).
Definition throw {A} (e : NativeException) : Native A :=
  fun ctx => (Throws e, ctx).
Definition bind {A B} (c : Native A) (k : A -> Native B) : Native B :=
  fun ctx =>
    match c ctx with
    | (Returns a, ctx') => k a ctx'
    | (Throws e, ctx') => (Throws e, ctx')
    | (UndefinedBehaviour, ctx') => (UndefinedBehaviour, ctx')
    end.
Definition lift {A} (c : Completion A) : Native A := fun ctx => (c, ctx).

Notation "'let!' x ':=' c 'in' k" := (bind c (fun x => k))
  (at level 10, x name, c at level 100, k at level 200).
Notation "c ';;' k" := (bind c (fun _ => k))
  (at level 100, k at level 200, right associativity).

(** ** Association lists for property slots *)
Fixpoint slot_lookup (name : string) (l : list (string * Slot)) : option Slot :=
  match l with
  | [] => None
  | (k, s) :: rest => if String.eqb k name then Some s else slot_lookup name rest
  end.

(** Writing an existing property keeps its position; a new one goes last. *)
Fixpoint slot_store (name : string) (s : Slot) (l : list (string * Slot))
  : list (string * Slot) :=
  match l with
  | [] => [(name, s)]
  | (k, old) :: rest =>
      if String.eqb k name then (k, s) :: rest
      else (k, old) :: slot_store name s rest
  end.

(** ** Conversions between numbers and text

    The engine's numeric literal reader and number printer are left open:
    nothing in the header depends on how they work. *)
Class NumericText : Type := {
  StringToNumber : string -> spec_float;
  NumberToString : spec_float -> string
}.

(** ** The JavaScriptCore calls of the header *)
Definition JSValueIsNull (value : JSValue) : bool :=
  match value with JSNull => true | _ => false end.
Definition JSValueIsBoolean (value : JSValue) : bool :=
  match value with JSBoolean _ => true | _ => false end.
Definition JSValueIsNumber (value : JSValue) : bool :=
  match value with JSNumber _ => true | _ => false end.

Definition JSValueMakeUndefined : JSValue := JSUndefined.

(** Truthiness. *)
Definition JSValueToBoolean (value : JSValue) : bool :=
  match value with
  | JSUndefined | JSNull => false
  | JSBoolean b => b
  | JSNumber d => (bool_of_double d && negb (isnan d))%bool
  | JSString s => negb (String.eqb s "")
  | JSObject _ => true
  end.

Section Engine.
Context `{NumericText}.

(** The conversion of an object is the outcome recorded with the object;
    what its script does to the context is outside the model. *)
Definition JSValueToNumber (ctx : World) (value : JSValue)
  : ScriptResult spec_float :=
  match value with
  | JSUndefined => Normal S754_nan
  | JSNull => Normal (S754_zero false)
  | JSBoolean b => Normal (double_of_bool b)
  | JSNumber d => Normal d
  | JSString s => Normal (StringToNumber s)
  | JSObject o =>
      match objects ctx !! o with
      | Some data => to_number data
      | None => Normal S754_nan
      end
  end.

Definition JSValueToStringCopy (ctx : World) (value : JSValue) : string :=
  match value with
  | JSUndefined => "undefined"
  | JSNull => "null"
  | JSBoolean b => if b then "true" else "false"
  | JSNumber d => NumberToString d
  | JSString s => s
  | JSObject o =>
      match objects ctx !! o with
      | Some data => to_string data
      | None => "undefined"
      end
  end.

End Engine.

(** A read looks at the slots of the object itself.  Properties an object
    inherits, and what the script of a getter does to the context before
    it answers or raises, are outside the model. *)
Definition JSObjectGetProperty
    (ctx : World) (object : JSObjectRef) (propertyName : string)
  : ScriptResult JSValue :=
  match objects ctx !! object with
  | Some data =>
      match slot_lookup propertyName (slots data) with
      | Some (Data v) => Normal v
      | Some (Accessor e) => Raised e
      | None => Normal JSUndefined
      end
  | None => Normal JSUndefined
  end.

(** An index names the property whose name is its decimal numeral. *)
Definition JSObjectGetPropertyAtIndex
    (ctx : World) (object : JSObjectRef) (propertyIndex : nat)
  : ScriptResult JSValue :=
  JSObjectGetProperty ctx object (pretty propertyIndex).

Definition with_slots (data : JSObjectData) (l : list (string * Slot))
  : JSObjectData :=
  {| kind := kind data; slots := l; private_data := private_data data;
     to_number := to_number data; to_string := to_string data |}.

Definition with_private (data : JSObjectData) (p : Z) : JSObjectData :=
  {| kind := kind data; slots := slots data; private_data := p;
     to_number := to_number data; to_string := to_string data |}.

(** An assignment to the slots of an object.  The name [__proto__], when
    the object has no slot of that name, reaches the setter every object
    inherits, which stores no slot; any other name is stored.  What that
    setter does to the prototype, and properties and setters an object
    inherits otherwise, are outside the model. *)
Definition assign (propertyName : string) (value : JSValue)
    (l : list (string * Slot)) : list (string * Slot) :=
  match slot_lookup propertyName l with
  | None =>
      if String.eqb propertyName "__proto__" then l
      else slot_store propertyName (Data value) l
  | Some _ => slot_store propertyName (Data value) l
  end.

(** [JSObjectSetProperty] with [kJSPropertyAttributeNone]: an ordinary
    assignment. *)
Definition JSObjectSetProperty
    (object : JSObjectRef) (propertyName : string) (value : JSValue)
    (ctx : World) : ScriptResult unit * World :=
  match objects ctx !! object with
  | Some data =>
      match slot_lookup propertyName (slots data) with
      | Some (Accessor e) => (Raised e, ctx)
      | _ =>
          (Normal tt,
           set_objects ctx
             (<[object := with_slots data
                            (assign propertyName value (slots data))]>
                (objects ctx)))
      end
  | None => (Normal tt, ctx)
  end.

(** Allocation: the new object goes to the end of the object table, and
    its reference is the position it gets. *)
Definition next_object (ctx : World) : JSObjectRef := length (objects ctx).

Definition with_new_object (ctx : World) (data : JSObjectData) : World :=
  set_objects ctx (objects ctx ++ [data]).

(** [JSObjectMake(ctx, NULL, NULL)]: a new object of the default class,
    without properties and without private data. *)
Definition plain_object : JSObjectData :=
  {| kind := OrdinaryObject; slots := []; private_data := 0;
     to_number := Normal S754_nan; to_string := "[object Object]" |}.

Definition JSObjectMake (ctx : World) : JSObjectRef * World :=
  (next_object ctx, with_new_object ctx plain_object).

Definition JSObjectGetPrivate (ctx : World) (object : JSObjectRef) : Z :=
  match objects ctx !! object with
  | Some data => private_data data
  | None => 0
  end.

Definition JSObjectSetPrivate (object : JSObjectRef) (data : Z) (ctx : World)
  : bool * World :=
  match objects ctx !! object with
  | Some d =>
      (true, set_objects ctx (<[object := with_private d data]> (objects ctx)))
  | None => (false, ctx)
  end.

(** [delete p]: nothing for a null pointer, release of a live allocation,
    and undefined for a pointer that is not live.  What the destructor of
    the pointee does is outside the header and is not modelled. *)
Definition delete (p : Z) : Native unit :=
  fun ctx =>
    if p =? 0 then (Returns tt, ctx)
    else if decide (p ∈ allocated ctx)
         then (Returns tt,
               {| objects := objects ctx; allocated := allocated ctx ∖ {[p]} |})
         else (UndefinedBehaviour, ctx).

(* ===================================================================== *)
(** * The header *)
(* ===================================================================== *)

(** Modelled from the spec: [RJSStringForJSString] (declared at line 119,
    defined outside the header) converts an engine string to a native
    string; engine strings and native strings are the same type here. *)
Definition RJSStringForJSString (jsString : string) : string := jsString.

(** The string form of an error object, as [Error.prototype.toString]
    builds it from the name "Error" and the message. *)
Definition error_to_string (message : string) : string :=
  if String.eqb message "" then "Error" else "Error: " +:+ message.

Definition error_object (message : string) (raw : option JSValue)
  : JSObjectData :=
  {| kind := ErrorObject raw;
     slots := [("message", Data (JSString message))];
     private_data := 0;
     to_number := Normal S754_nan;
     to_string := error_to_string message |}.

(** Modelled from the spec: the three overloads of [RJSMakeError] are
    declared at lines 154-156 and defined outside the header.  The spec has
    a script error as an error object "carrying a message and, optionally,
    the original raw script exception value it wraps", built "from a native
    exception or raw message". *)
Definition RJSMakeError_message (message : string) (ctx : World)
  : JSValue * World :=
  (JSObject (next_object ctx),
   with_new_object ctx (error_object message None)).

Definition RJSMakeError (exp : NativeException) (ctx : World)
  : JSValue * World :=
  match exp with
  | RJSException message raw =>
      (JSObject (next_object ctx),
       with_new_object ctx (error_object message (Some raw)))
  | _ => RJSMakeError_message (what exp) ctx
  end.

(** [RJSSetException] (lines 319-321): the new content of the exception
    slot, and the context. *)
Definition RJSSetException (exception : NativeException) (ctx : World)
  : JSValueRef * World :=
  let '(error, ctx') := RJSMakeError exception ctx in (Some error, ctx').

(** Modelled from the spec: [realm::Property] and [realm::ObjectSchema] are
    declared in [property.hpp] and [schema.hpp], outside the header.  The
    spec has a schema as an "ordered list of named property descriptors";
    the marshaller reads the names only. *)
Record Property : Type := { name : string }.
Record ObjectSchema : Type := { properties : list Property }.

Section Header.
Context `{NumericText}.

(** Modelled from the spec: [RJSStringForValue] is declared at line 120 and
    defined outside the header; the spec calls its result "the rendered
    form of that value", which is the engine's conversion to a string. *)
Definition RJSStringForValue (ctx : World) (value : JSValue) : string :=
  JSValueToStringCopy ctx value.

(** The constructor of [RJSException] (lines 146-147). *)
Definition RJSException_new (ctx : World) (ex : JSValue) : NativeException :=
  RJSException (RJSStringForValue ctx ex) ex.

(** [RJSValidatedValueToNumber] (lines 186-200). *)
Definition RJSValidatedValueToNumber (value : JSValue) : Native spec_float :=
  fun ctx =>
    if JSValueIsNull value
    then (Throws (invalid_argument "`null` is not a number."), ctx)
    else
      match JSValueToNumber ctx value with
      | Raised exception => (Throws (RJSException_new ctx exception), ctx)
      | Normal number =>
          if isnan number
          then (Throws (invalid_argument "Value not convertible to a number."),
                ctx)
          else (Returns number, ctx)
      end.

(** [RJSValidatedValueToBoolean] (lines 202-207); the declared return type
    is [double]. *)
Definition RJSValidatedValueToBoolean (value : JSValue) : Native spec_float :=
  fun ctx =>
    if negb (JSValueIsBoolean value)
    then (Throws (invalid_argument "Value is not a boolean."), ctx)
    else (Returns (double_of_bool (JSValueToBoolean value)), ctx).

(** [RJSValidatedListLength] (lines 248-260); the double is returned as a
    [size_t]. *)
Definition RJSValidatedListLength (object : JSObjectRef) : Native Z :=
  fun ctx =>
    match JSObjectGetProperty ctx object "length" with
    | Raised exception => (Throws (RJSException_new ctx exception), ctx)
    | Normal lengthValue =>
        if negb (JSValueIsNumber lengthValue)
        then (Throws (runtime_error "Missing property 'length'"), ctx)
        else
          (let! number := RJSValidatedValueToNumber lengthValue in
           match double_to_size_t number with
           | Some n => ret n
           | None => lift UndefinedBehaviour
           end) ctx
    end.

(** The loop of lines 331-342, from position [i] on, over the properties
    that remain.  The counter of the source is an [unsigned int]; it does
    not wrap while the schema has at most [UINT_MAX] properties. *)
Fixpoint copy_properties
    (remaining : list Property) (i : nat) (array dict : JSObjectRef)
  : Native unit :=
  match remaining with
  | [] => ret tt
  | p :: rest =>
      fun ctx =>
        let nameStr := c_str (name p) in
        match JSObjectGetPropertyAtIndex ctx array i with
        | Raised exception => (Throws (RJSException_new ctx exception), ctx)
        | Normal value =>
            match JSObjectSetProperty dict nameStr value ctx with
            | (Raised exception, ctx') =>
                (Throws (RJSException_new ctx' exception), ctx')
            | (Normal _, ctx') => copy_properties rest (S i) array dict ctx'
            end
        end
  end.

(** [RJSDictForPropertyArray] (lines 323-344). *)
Definition RJSDictForPropertyArray
    (object_schema : ObjectSchema) (array : JSObjectRef) : Native JSObjectRef :=
  let! len := RJSValidatedListLength array in
  if negb (Z.of_nat (length (properties object_schema)) =? len)
  then throw (runtime_error
                "Array must contain values for all object properties")
  else
    fun ctx =>
      let '(dict, ctx') := JSObjectMake ctx in
      (copy_properties (properties object_schema) 0 array dict ;; ret dict) ctx'.

End Header.

(** [RJSFinalize<T>] (lines 93-97). *)
Definition RJSFinalize (object : JSObjectRef) : Native unit :=
  fun ctx =>
    (delete (JSObjectGetPrivate ctx object) ;;
     fun ctx' => (Returns tt, snd (JSObjectSetPrivate object 0 ctx'))) ctx.

(** ** The adapters

    An adapter is what the engine calls.  It returns its C return value
    together with the content of [*ex] ([NULL] when the adapter did not
    write to it).  Every exception class of [NativeException] derives from
    [std::exception], so the last [catch] clause takes what the earlier
    ones leave. *)

(** A native handler with a [JSValueRef &returnValue] parameter.  The
    adapter hands it a slot holding [NULL]; what the handler stores there
    stays stored when the handler throws afterwards. *)
Definition NativeMethod : Type := World -> Completion unit * JSValueRef * World.

(** [WRAP_EXCEPTION] (lines 36-38): the call in a [try] block, and the
    [catch] clause that stores the script error made from the exception in
    [EXCEPTION].  The result is the content of [EXCEPTION] afterwards. *)
Definition WRAP_EXCEPTION (call : Native unit) : Native JSValueRef :=
  fun ctx =>
    match call ctx with
    | (Returns _, ctx') => (Returns NULL, ctx')
    | (Throws e, ctx') =>
        let '(ex, ctx'') := RJSSetException e ctx' in (Returns ex, ctx'')
    | (UndefinedBehaviour, ctx') => (UndefinedBehaviour, ctx')
    end.

(** [WRAP_CLASS_METHOD] (lines 40-45). *)
Definition WRAP_CLASS_METHOD
    (METHOD : JSObjectRef -> list JSValue -> NativeMethod)
    (thisObject : JSObjectRef) (arguments : list JSValue)
  : Native (JSValueRef * JSValueRef) :=
  fun ctx =>
    let '(outcome, returnValue, ctx') := METHOD thisObject arguments ctx in
    (let! ex := WRAP_EXCEPTION (lift outcome) in ret (returnValue, ex)) ctx'.

(** [WRAP_PROPERTY_SETTER] (lines 61-65). *)
Definition WRAP_PROPERTY_SETTER
    (METHOD : JSObjectRef -> JSValue -> Native unit)
    (object : JSObjectRef) (property : string) (value : JSValue)
  : Native (bool * JSValueRef) :=
  let! ex := WRAP_EXCEPTION (METHOD object value) in ret (true, ex).

(** The three [catch] clauses of [WRAP_INDEXED_GETTER] (lines 75-77), in
    the order they are tried. *)
Definition indexed_getter_catch (e : NativeException) (ctx : World)
  : Completion (JSValueRef * JSValueRef) * World :=
  match e with
  | out_of_range _ => (Returns (Some JSValueMakeUndefined, NULL), ctx)
  | invalid_argument _ => (Returns (NULL, NULL), ctx)
  | _ =>
      let '(ex, ctx') := RJSSetException e ctx in (Returns (NULL, ex), ctx')
  end.

(** [WRAP_INDEXED_GETTER] (lines 68-78). *)
Definition WRAP_INDEXED_GETTER
    (METHOD : JSObjectRef -> Z -> NativeMethod)
    (object : JSObjectRef) (property : string)
  : Native (JSValueRef * JSValueRef) :=
  fun ctx =>
    match RJSValidatedPositiveIndex (RJSStringForJSString property) with
    | Returns index =>
        match METHOD object index ctx with
        | (Returns _, returnValue, ctx') => (Returns (returnValue, NULL), ctx')
        | (Throws e, _, ctx') => indexed_getter_catch e ctx'
        | (UndefinedBehaviour, _, ctx') => (UndefinedBehaviour, ctx')
        end
    | Throws e => indexed_getter_catch e ctx
    | UndefinedBehaviour => (UndefinedBehaviour, ctx)
    end.

(** The three [catch] clauses of [WRAP_INDEXED_SETTER] (lines 86-88) and
    the [return false] after them. *)
Definition indexed_setter_catch (e : NativeException) (ctx : World)
  : Completion (bool * JSValueRef) * World :=
  match e with
  | out_of_range _ =>
      let '(ex, ctx') := RJSSetException e ctx in (Returns (false, ex), ctx')
  | invalid_argument _ =>
      let '(error, ctx') := RJSMakeError_message "Invalid index" ctx in
      (Returns (false, Some error), ctx')
  | _ =>
      let '(ex, ctx') := RJSSetException e ctx in (Returns (false, ex), ctx')
  end.

(** [WRAP_INDEXED_SETTER] (lines 80-90). *)
Definition WRAP_INDEXED_SETTER
    (METHOD : JSObjectRef -> Z -> JSValue -> Native unit)
    (object : JSObjectRef) (property : string) (value : JSValue)
  : Native (bool * JSValueRef) :=
  fun ctx =>
    match RJSValidatedPositiveIndex (RJSStringForJSString property) with
    | Returns index =>
        match METHOD object index value ctx with
        | (Returns _, ctx') => (Returns (true, NULL), ctx')
        | (Throws e, ctx') => indexed_setter_catch e ctx'
        | (UndefinedBehaviour, ctx') => (UndefinedBehaviour, ctx')
        end
    | Throws e => indexed_setter_catch e ctx
    | UndefinedBehaviour => (UndefinedBehaviour, ctx)
    end.

(** A native method that validates its argument count before anything
    else, the way the wrapped classes call [RJSValidateArgumentCount]. *)
Definition after_argument_count
    (argumentCount expected : Z) (message : option string)
    (rest : NativeMethod) : NativeMethod :=
  fun ctx =>
    match RJSValidateArgumentCount argumentCount expected message with
    | Returns _ => rest ctx
    | Throws e => (Throws e, NULL, ctx)
    | UndefinedBehaviour => (UndefinedBehaviour, NULL, ctx)
    end.

(** ** The rest of the header *)

(** [RJSGetInternal<T>] (lines 99-102). *)
Definition RJSGetInternal (ctx : World) (jsObject : JSObjectRef) : Z :=
  JSObjectGetPrivate ctx jsObject.

(** [RJSValidateArgumentCountIsAtLeast] (lines 132-136). *)
Definition RJSValidateArgumentCountIsAtLeast
    (argumentCount expected : Z) (message : option string) : Completion unit :=
  if argumentCount <? expected
  then Throws (invalid_argument (elvis message "Invalid arguments"))
  else Returns tt.

(** [RJSValidateArgumentRange] (lines 138-142). *)
Definition RJSValidateArgumentRange
    (argumentCount min max : Z) (message : option string) : Completion unit :=
  if ((argumentCount <? min) || (max <? argumentCount))%bool
  then Throws (invalid_argument (elvis message "Invalid arguments"))
  else Returns tt.

Definition JSValueIsUndefined (value : JSValue) : bool :=
  match value with JSUndefined => true | _ => false end.

(** The wrapper object the engine creates around a boolean, a number or a
    string is left open. *)
Class Boxing : Type := { box : JSValue -> JSObjectData }.

(** [JSValueToObject(ctx, value, NULL)]: no object for [undefined] and
    [null] (the script exception is dropped, as the header passes no slot
    for it), the object itself for an object, a new wrapper otherwise. *)
Definition JSValueToObject `{Boxing} (value : JSValue) (ctx : World)
  : option JSObjectRef * World :=
  match value with
  | JSUndefined | JSNull => (None, ctx)
  | JSObject o => (Some o, ctx)
  | _ => (Some (next_object ctx), with_new_object ctx (box value))
  end.

Section Accessors.
Context `{NumericText} `{Boxing}.

(** [RJSValidatedValueToObject] (lines 162-168). *)
Definition RJSValidatedValueToObject
    (value : JSValue) (message : option string) : Native JSObjectRef :=
  fun ctx =>
    match JSValueToObject value ctx with
    | (None, ctx') =>
        (Throws (runtime_error (elvis message "Value is not an object.")), ctx')
    | (Some object, ctx') => (Returns object, ctx')
    end.

(** [RJSValidatedPropertyValue] (lines 209-216). *)
Definition RJSValidatedPropertyValue
    (object : JSObjectRef) (property : string) : Native JSValue :=
  fun ctx =>
    match JSObjectGetProperty ctx object property with
    | Raised exception => (Throws (RJSException_new ctx exception), ctx)
    | Normal propertyValue => (Returns propertyValue, ctx)
    end.

(** [RJSValidatedPropertyAtIndex] (lines 218-225). *)
Definition RJSValidatedPropertyAtIndex
    (object : JSObjectRef) (index : nat) : Native JSValue :=
  fun ctx =>
    match JSObjectGetPropertyAtIndex ctx object index with
    | Raised exception => (Throws (RJSException_new ctx exception), ctx)
    | Normal propertyValue => (Returns propertyValue, ctx)
    end.

(** [RJSValidatedObjectProperty] (lines 227-233). *)
Definition RJSValidatedObjectProperty
    (object : JSObjectRef) (property : string) (err : option string)
  : Native JSObjectRef :=
  let! propertyValue := RJSValidatedPropertyValue object property in
  if JSValueIsUndefined propertyValue
  then throw (runtime_error
                (elvis err ("Object property '"
                            +:+ RJSStringForJSString property
                            +:+ "' is undefined")))
  else RJSValidatedValueToObject propertyValue err.

(** [RJSValidatedObjectAtIndex] (lines 235-237). *)
Definition RJSValidatedObjectAtIndex
    (object : JSObjectRef) (index : nat) : Native JSObjectRef :=
  let! propertyValue := RJSValidatedPropertyAtIndex object index in
  RJSValidatedValueToObject propertyValue None.

End Accessors.

(** A native handler with a [JSObjectRef &returnObject] parameter. *)
Definition NativeConstructor : Type :=
  World -> Completion unit * option JSObjectRef * World.

(** [WRAP_CONSTRUCTOR] (lines 47-52). *)
Definition WRAP_CONSTRUCTOR
    (METHOD : JSObjectRef -> list JSValue -> NativeConstructor)
    (constructor : JSObjectRef) (arguments : list JSValue)
  : Native (option JSObjectRef * JSValueRef) :=
  fun ctx =>
    let '(outcome, returnObject, ctx') := METHOD constructor arguments ctx in
    (let! ex := WRAP_EXCEPTION (lift outcome) in ret (returnObject, ex)) ctx'.

(** [WRAP_PROPERTY_GETTER] (lines 54-59). *)
Definition WRAP_PROPERTY_GETTER
    (METHOD : JSObjectRef -> NativeMethod)
    (object : JSObjectRef) (property : string)
  : Native (JSValueRef * JSValueRef) :=
  fun ctx =>
    let '(outcome, returnValue, ctx') := METHOD object ctx in
    (let! ex := WRAP_EXCEPTION (lift outcome) in ret (returnValue, ex)) ctx'.

(* ===================================================================== *)
(** * Vocabulary of the statements *)
(* ===================================================================== *)

(** [haystack] contains [needle]. *)
Definition contains (haystack needle : string) : Prop :=
  exists before after, haystack = before +:+ needle +:+ after.

(** The object at [array] has a [length] that is a number and converts to
    [n]. *)
Definition has_length (ctx : World) (array : JSObjectRef) (n : nat) : Prop :=
  exists data d,
    objects ctx !! array = Some data /\
    slot_lookup "length" (slots data) = Some (Data (JSNumber d)) /\
    double_to_size_t d = Some (Z.of_nat n).

(** The object at [array] is an array of the given elements: its [length]
    is their count, which is at most [UINT_MAX] as for every script array,
    and each element is stored as a value under the numeral of its
    position, so that reading it runs no script. *)
Definition is_array_of
    (ctx : World) (array : JSObjectRef) (elements : list JSValue) : Prop :=
  has_length ctx array (length elements) /\
  Z.of_nat (length elements) <= UINT_MAX /\
  exists data,
    objects ctx !! array = Some data /\
    forall (i : nat) v,
      elements !! i = Some v ->
      slot_lookup (pretty i) (slots data) = Some (Data v).

(** The double of a count, and the slots of the object an array literal
    creates. *)
Definition double_of_nat (n : nat) : spec_float :=
  match n with
  | O => S754_zero false
  | S k => S754_finite false (Pos.of_succ_nat k) 0
  end.

Fixpoint element_slots (i : nat) (elements : list JSValue)
  : list (string * Slot) :=
  match elements with
  | [] => []
  | v :: rest => (pretty i, Data v) :: element_slots (S i) rest
  end.

Definition array_slots (elements : list JSValue) : list (string * Slot) :=
  ("length", Data (JSNumber (double_of_nat (length elements))))
  :: element_slots 0 elements.

(** The slots of the dictionary after the writes of the loop: one store
    per schema position, in schema order. *)
Fixpoint stores (names : list string) (values : list JSValue)
    (acc : list (string * Slot)) : list (string * Slot) :=
  match names, values with
  | n :: names', v :: values' => stores names' values' (assign n v acc)
  | _, _ => acc
  end.

(** The key the loop writes for a schema property. *)
Definition key_of (p : Property) : string := c_str (name p).

(** A name that is written as it stands and stored as a slot: it holds no
    NUL and is not [__proto__]. *)
Definition ordinary_name (n : string) : bool :=
  (negb (String.eqb n "__proto__") && String.eqb (c_str n) n)%bool.

Definition slot_names (l : list (string * Slot)) : list string := l.*1.

(** The script exception a native exception wraps, if any. *)
Definition raw_exception (e : NativeException) : option JSValue :=
  match e with
  | RJSException _ raw => Some raw
  | _ => None
  end.

(** The context after the handle of [object] was deleted and its private
    slot cleared. *)
Definition released (ctx : World) (object : JSObjectRef) (data : JSObjectData)
  : World :=
  {| objects := <[object := with_private data 0]> (objects ctx);
     allocated := allocated ctx ∖ {[private_data data]} |}.

(** Every slot holds a value: no accessor among them. *)
Definition data_only (l : list (string * Slot)) : Prop :=
  forall n e, slot_lookup n l <> Some (Accessor e).

(** The string begins with a decimal digit. *)
Definition starts_with_digit (s : string) : bool :=
  match s with
  | String c _ => bool_decide (is_Some (digit_value c))
  | EmptyString => false
  end.

(** ** Concrete inputs *)
Definition empty_world : World := {| objects := []; allocated := ∅ |}.

(** Handlers that do nothing, for runs in which the adapter never gets to
    them. *)
Definition idle_getter : JSObjectRef -> Z -> NativeMethod :=
  fun _ _ ctx => (Returns tt, NULL, ctx).
Definition idle_setter : JSObjectRef -> Z -> JSValue -> Native unit :=
  fun _ _ _ => ret tt.

(** A getter that answers with its index, and a setter that stores the
    value under the numeral of its index. *)
Definition echo_getter : JSObjectRef -> Z -> NativeMethod :=
  fun _ index ctx =>
    (Returns tt, Some (JSNumber (double_of_nat (Z.to_nat index))), ctx).
Definition store_setter : JSObjectRef -> Z -> JSValue -> Native unit :=
  fun object index value ctx =>
    (Returns tt, snd (JSObjectSetProperty object (pretty index) value ctx)).

(** A stand-in for the engine's text conversions, for runs in which no
    numeric text is read and no number is printed: every string reads as
    not-a-number and every number prints as the empty string. *)
Definition blank_text : NumericText :=
  {| StringToNumber := fun _ => S754_nan; NumberToString := fun _ => "" |}.

(** An object whose conversion to a number raises the string "no". *)
Definition stubborn_object : JSObjectData :=
  {| kind := OrdinaryObject; slots := []; private_data := 0;
     to_number := Raised (JSString "no"); to_string := "stubborn" |}.

Definition stubborn_world : World :=
  {| objects := [stubborn_object]; allocated := ∅ |}.

(** A setter that refuses every value. *)
Definition refusing_setter : JSObjectRef -> JSValue -> Native unit :=
  fun _ _ => throw (runtime_error "read-only").

(** A method that creates an object and returns it. *)
Definition making_method : JSObjectRef -> list JSValue -> NativeMethod :=
  fun _ _ ctx =>
    let '(object, ctx') := JSObjectMake ctx in
    (Returns tt, Some (JSObject object), ctx').

(** A context with one wrapper object that owns the handle at 4096. *)
Definition wrapper_object : JSObjectData :=
  {| kind := OrdinaryObject; slots := []; private_data := 4096;
     to_number := Normal S754_nan; to_string := "[object Results]" |}.
Definition wrapper_world : World :=
  {| objects := [wrapper_object]; allocated := {[4096]} |}.

(** A schema of two properties, an array that fits it and one that is too
    short. *)
Definition person_schema : ObjectSchema :=
  {| properties := [ {| name := "name" |}; {| name := "age" |} ] |}.
Definition person_values : list JSValue :=
  [JSString "Ann"; JSNumber (S754_finite false 5 3)].
Definition person_array : JSObjectData :=
  {| kind := OrdinaryObject; slots := array_slots person_values;
     private_data := 0; to_number := Normal S754_nan; to_string := "Ann,40" |}.
Definition short_array : JSObjectData :=
  {| kind := OrdinaryObject; slots := array_slots [JSString "Ann"];
     private_data := 0; to_number := Normal S754_nan; to_string := "Ann" |}.
Definition person_world : World :=
  {| objects := [person_array; short_array]; allocated := ∅ |}.

(** A schema that names the same property twice, and an array whose
    second element is an accessor that raises. *)
Definition twin_schema : ObjectSchema :=
  {| properties := [ {| name := "id" |}; {| name := "id" |} ] |}.
Definition guarded_array : JSObjectData :=
  {| kind := OrdinaryObject;
     slots := [("length", Data (JSNumber (double_of_nat 2)));
               ("0", Data (JSString "Ann"));
               ("1", Accessor (JSString "denied"))];
     private_data := 0; to_number := Normal S754_nan; to_string := "" |}.
Definition guarded_world : World :=
  {| objects := [guarded_array]; allocated := ∅ |}.

(** Schemas of one property whose name holds a NUL after "na", and whose
    name is [__proto__]. *)
Definition nul_schema : ObjectSchema :=
  {| properties := [ {| name := String "n" (String "a" (String "000" "me")) |} ] |}.
Definition proto_schema : ObjectSchema :=
  {| properties := [ {| name := "__proto__" |} ] |}.

(** A method that stores a value and then throws. *)
Definition late_failure : JSObjectRef -> list JSValue -> NativeMethod :=
  fun _ _ ctx =>
    (Throws (runtime_error "too late"), Some (JSBoolean true), ctx).

(** A stand-in for the engine's wrapper objects. *)
Definition plain_boxing : Boxing := {| box := fun _ => plain_object |}.

(** An object whose [length] is the number -1. *)
Definition object_with_length (lengthValue : JSValue) : JSObjectData :=
  {| kind := OrdinaryObject; slots := [("length", Data lengthValue)];
     private_data := 0; to_number := Normal S754_nan;
     to_string := "[object Object]" |}.
Definition odd_lengths_world : World :=
  {| objects := [object_with_length (JSNumber (S754_finite true 1 0))];
     allocated := ∅ |}.

(** An object with an object, a null and a raising accessor among its
    properties, and an array that holds an object and a null. *)
Definition holder_object : JSObjectData :=
  {| kind := OrdinaryObject;
     slots := [("owner", Data (JSObject 1%nat)); ("pet", Data JSNull);
               ("tax", Accessor (JSString "denied"))];
     private_data := 0; to_number := Normal S754_nan;
     to_string := "[object Object]" |}.
Definition roster_values : list JSValue := [JSObject 1%nat; JSNull].
Definition roster_array : JSObjectData :=
  {| kind := OrdinaryObject; slots := array_slots roster_values;
     private_data := 0; to_number := Normal S754_nan;
     to_string := "[object Object]," |}.
Definition holder_world : World :=
  {| objects := [holder_object; plain_object; roster_array];
     allocated := ∅ |}.

(** Three wrapper objects; the third holds the handle of the first. *)
Definition other_wrapper : JSObjectData :=
  {| kind := OrdinaryObject; slots := []; private_data := 8192;
     to_number := Normal S754_nan; to_string := "[object List]" |}.
Definition wrappers_world : World :=
  {| objects := [wrapper_object; other_wrapper; wrapper_object];
     allocated := {[4096; 8192]} |}.


(* ===================================================================== *)
(** * Index parsing *)
(* ===================================================================== *)

Lemma stot_defined (s : string) : stot s <> UndefinedBehaviour.
Proof. unfold stot. destruct (extract_long s); discriminate. Qed.

Lemma stot_throws (s : string) (e : NativeException) :
  stot s = Throws e ->
  e = invalid_argument ("Cannot convert string '" +:+ s +:+ "'").
Proof.
  unfold stot. destruct (extract_long s); intros Hs; congruence.
Qed.

Lemma stot_fits_long (s : string) (index : Z) :
  stot s = Returns index -> LONG_MIN <= index <= LONG_MAX.
Proof.
  unfold stot, extract_long.
  destruct (read_sign (skip_ws s)) as [negative digits].
  destruct (read_digits digits 0 false) as [magnitude|]; [|discriminate].
  destruct ((LONG_MIN <=? _) && (_ <=? LONG_MAX))%bool eqn:Hfit; [|discriminate].
  intros [= <-]. apply andb_true_iff in Hfit as [Hlo Hhi]. lia.
Qed.

Lemma index_of_natural (indexStr : string) (index : Z) :
  stot indexStr = Returns index -> 0 <= index ->
  RJSValidatedPositiveIndex indexStr = Returns index.
Proof.
  intros Hs Hpos. pose proof (stot_fits_long _ _ Hs) as [_ Hhi].
  unfold RJSValidatedPositiveIndex. rewrite Hs.
  destruct (index <? 0) eqn:Hneg; [lia|].
  f_equal. apply Z.mod_small. unfold LONG_MAX, SIZE_MAX in *. lia.
Qed.

Lemma index_of_negative (indexStr : string) (index : Z) :
  stot indexStr = Returns index -> index < 0 ->
  RJSValidatedPositiveIndex indexStr =
  Throws (out_of_range ("Index " +:+ indexStr +:+ " cannot be less than zero.")).
Proof.
  intros Hs Hneg. unfold RJSValidatedPositiveIndex. rewrite Hs.
  destruct (index <? 0) eqn:Hlt; [reflexivity|lia].
Qed.

Lemma index_of_unparsable (indexStr : string) (e : NativeException) :
  stot indexStr = Throws e ->
  RJSValidatedPositiveIndex indexStr =
  Throws (invalid_argument ("Cannot convert string '" +:+ indexStr +:+ "'")).
Proof.
  intros Hs. unfold RJSValidatedPositiveIndex. rewrite Hs.
  by rewrite (stot_throws _ _ Hs).
Qed.

(** The extraction reads the longest numeral at the front of the string
    and fails on overflow. *)
Example stot_reads_prefix : stot "12abc" = Returns 12.
Proof. reflexivity. Qed.

Example stot_skips_space : stot "  +42" = Returns 42.
Proof. reflexivity. Qed.

Example stot_least_long :
  stot "-9223372036854775808" = Returns (-9223372036854775808).
Proof. reflexivity. Qed.

Example stot_overflow :
  stot "9223372036854775808" =
  Throws (invalid_argument "Cannot convert string '9223372036854775808'").
Proof. reflexivity. Qed.

Example stot_sign_only :
  stot "-" = Throws (invalid_argument "Cannot convert string '-'").
Proof. reflexivity. Qed.

(* ===================================================================== *)
(** * Indexed adapters *)
(* ===================================================================== *)

(** C1, as stated, fails on the code.  The setter answers a name that does
    not parse with the script error "Invalid index"; the getter answers a
    negative index with [undefined] and no error; and for a name that does
    not parse the getter returns [NULL], which is no value at all, rather
    than the value [undefined]. *)
Lemma indexed_access_counterexample :
  WRAP_INDEXED_SETTER idle_setter 0%nat "xyz" JSNull empty_world =
    (Returns (false, Some (JSObject 0%nat)),
     with_new_object empty_world (error_object "Invalid index" None)) /\
  WRAP_INDEXED_GETTER idle_getter 0%nat "-3" empty_world =
    (Returns (Some JSUndefined, NULL), empty_world) /\
  WRAP_INDEXED_GETTER idle_getter 0%nat "xyz" empty_world =
    (Returns (NULL, NULL), empty_world).
Proof. repeat split; reflexivity. Qed.

(** C1, amended.  For every indexed-property access: a name that parses to
    a non-negative integer makes the adapter run the native handler at
    exactly that integer; a name that does not parse makes the getter
    return [NULL] with no error and the setter raise "Invalid index" and
    return false; a name that parses to a negative number makes the getter
    return [undefined] with no error and the setter raise the out-of-range
    error "Index <name> cannot be less than zero." and return false. *)
Theorem indexed_access_policy
    (getter : JSObjectRef -> Z -> NativeMethod)
    (setter : JSObjectRef -> Z -> JSValue -> Native unit)
    (object : JSObjectRef) (property : string) (value : JSValue)
    (ctx : World) :
  (forall index, stot property = Returns index -> 0 <= index ->
     WRAP_INDEXED_GETTER getter object property ctx =
       match getter object index ctx with
       | (Returns _, returnValue, ctx') => (Returns (returnValue, NULL), ctx')
       | (Throws e, _, ctx') => indexed_getter_catch e ctx'
       | (UndefinedBehaviour, _, ctx') => (UndefinedBehaviour, ctx')
       end /\
     WRAP_INDEXED_SETTER setter object property value ctx =
       match setter object index value ctx with
       | (Returns _, ctx') => (Returns (true, NULL), ctx')
       | (Throws e, ctx') => indexed_setter_catch e ctx'
       | (UndefinedBehaviour, ctx') => (UndefinedBehaviour, ctx')
       end) /\
  (forall e, stot property = Throws e ->
     WRAP_INDEXED_GETTER getter object property ctx =
       (Returns (NULL, NULL), ctx) /\
     WRAP_INDEXED_SETTER setter object property value ctx =
       (Returns (false, Some (JSObject (next_object ctx))),
        with_new_object ctx (error_object "Invalid index" None))) /\
  (forall index, stot property = Returns index -> index < 0 ->
     WRAP_INDEXED_GETTER getter object property ctx =
       (Returns (Some JSUndefined, NULL), ctx) /\
     WRAP_INDEXED_SETTER setter object property value ctx =
       (Returns (false, Some (JSObject (next_object ctx))),
        with_new_object ctx
          (error_object
             ("Index " +:+ property +:+ " cannot be less than zero.") None))).
Proof.
  unfold WRAP_INDEXED_GETTER, WRAP_INDEXED_SETTER, RJSStringForJSString.
  split; [|split].
  - intros index Hs Hpos. by rewrite (index_of_natural _ _ Hs Hpos).
  - intros e Hs. by rewrite (index_of_unparsable _ _ Hs).
  - intros index Hs Hneg. by rewrite (index_of_negative _ _ Hs Hneg).
Qed.

Lemma indexed_access_policy_witness :
  WRAP_INDEXED_GETTER echo_getter 0%nat "7" empty_world =
    (Returns (Some (JSNumber (S754_finite false 7 0)), NULL), empty_world) /\
  WRAP_INDEXED_GETTER echo_getter 0%nat "seven" empty_world =
    (Returns (NULL, NULL), empty_world) /\
  WRAP_INDEXED_SETTER store_setter 0%nat "-7" JSNull empty_world =
    (Returns (false, Some (JSObject 0%nat)),
     with_new_object empty_world
       (error_object "Index -7 cannot be less than zero." None)).
Proof.
  split; [|split].
  - destruct (indexed_access_policy echo_getter store_setter 0%nat "7"
                JSNull empty_world) as (Hnat & _ & _).
    destruct (Hnat 7 eq_refl ltac:(lia)) as [Hget _]. exact Hget.
  - destruct (indexed_access_policy echo_getter store_setter 0%nat "seven"
                JSNull empty_world) as (_ & Hbad & _).
    destruct (Hbad _ eq_refl) as [Hget _]. exact Hget.
  - destruct (indexed_access_policy echo_getter store_setter 0%nat "-7"
                JSNull empty_world) as (_ & _ & Hneg).
    destruct (Hneg (-7) eq_refl ltac:(lia)) as [_ Hset]. exact Hset.
Defined.

(** C2, as stated, fails on the code: the setter does not let the name
    "abc" pass as a property of another kind, it raises the script error
    "Invalid index" and reports failure. *)
Lemma indexed_setter_abc_counterexample :
  WRAP_INDEXED_SETTER store_setter 0%nat "abc" (JSBoolean true) empty_world =
    (Returns (false, Some (JSObject 0%nat)),
     with_new_object empty_world (error_object "Invalid index" None)).
Proof. reflexivity. Qed.

(** C2, amended.  The indexed setter invoked with the name "-1" raises the
    out-of-range error with the message "Index -1 cannot be less than
    zero."; invoked with the name "abc" it raises the script error
    "Invalid index".  In both cases it returns false and the native
    handler is not run. *)
Theorem indexed_setter_scenario
    (setter : JSObjectRef -> Z -> JSValue -> Native unit)
    (object : JSObjectRef) (value : JSValue) (ctx : World) :
  WRAP_INDEXED_SETTER setter object "-1" value ctx =
    (Returns (false, Some (JSObject (next_object ctx))),
     with_new_object ctx
       (error_object "Index -1 cannot be less than zero." None)) /\
  WRAP_INDEXED_SETTER setter object "abc" value ctx =
    (Returns (false, Some (JSObject (next_object ctx))),
     with_new_object ctx (error_object "Invalid index" None)).
Proof. split; reflexivity. Qed.

(* ===================================================================== *)
(** * Validated conversions *)
(* ===================================================================== *)

Section Conversions.
Context `{NumericText}.

(** C5.  Validated number conversion throws, and so returns no number, on
    every input that is null, or whose conversion to a number gives NaN,
    or whose conversion raises.  Null is refused by a test of its own and
    with a message of its own, although the engine would convert it to
    zero; NaN is refused as "not convertible"; both as
    [std::invalid_argument].  A conversion that raises a script exception
    surfaces as the [RJSException] that wraps it. *)
Theorem number_conversion_rejects (value : JSValue) (ctx : World) :
  (JSValueIsNull value = true ->
     RJSValidatedValueToNumber value ctx =
       (Throws (invalid_argument "`null` is not a number."), ctx)) /\
  (forall d, JSValueToNumber ctx value = Normal d -> isnan d = true ->
     RJSValidatedValueToNumber value ctx =
       (Throws (invalid_argument "Value not convertible to a number."), ctx)) /\
  (forall exception, JSValueToNumber ctx value = Raised exception ->
     RJSValidatedValueToNumber value ctx =
       (Throws (RJSException_new ctx exception), ctx)) /\
  JSValueToNumber ctx JSNull = Normal (S754_zero false).
Proof.
  unfold RJSValidatedValueToNumber. repeat split.
  - by intros ->.
  - intros d Hd Hnan.
    destruct value; simpl in *; simplify_eq; rewrite ?Hd, ?Hnan; try done.
  - intros exception Hex. destruct value; simpl in *; try discriminate.
    by rewrite Hex.
Qed.

(** C6.  Validated boolean conversion throws [std::invalid_argument] on
    every value whose kind is not boolean, whatever its truthiness, and on
    a boolean it returns that boolean, as the double 1 or 0 of the
    declared return type. *)
Theorem boolean_conversion_strict (value : JSValue) (ctx : World) :
  (JSValueIsBoolean value = false ->
     RJSValidatedValueToBoolean value ctx =
       (Throws (invalid_argument "Value is not a boolean."), ctx)) /\
  (forall b, value = JSBoolean b ->
     RJSValidatedValueToBoolean value ctx = (Returns (double_of_bool b), ctx) /\
     bool_of_double (double_of_bool b) = b).
Proof.
  unfold RJSValidatedValueToBoolean. split.
  - by intros ->.
  - intros b ->. split; [reflexivity|by destruct b].
Qed.

End Conversions.

Lemma number_conversion_rejects_witness :
  @RJSValidatedValueToNumber blank_text JSNull empty_world =
    (Throws (invalid_argument "`null` is not a number."), empty_world) /\
  @RJSValidatedValueToNumber blank_text (JSString "x") empty_world =
    (Throws (invalid_argument "Value not convertible to a number."),
     empty_world) /\
  @RJSValidatedValueToNumber blank_text (JSObject 0%nat) stubborn_world =
    (Throws (RJSException "no" (JSString "no")), stubborn_world).
Proof.
  split; [|split].
  - destruct (@number_conversion_rejects blank_text JSNull empty_world)
      as (Hnull & _).
    exact (Hnull eq_refl).
  - destruct (@number_conversion_rejects blank_text (JSString "x") empty_world)
      as (_ & Hnan & _).
    exact (Hnan S754_nan eq_refl eq_refl).
  - destruct (@number_conversion_rejects blank_text (JSObject 0%nat)
                stubborn_world) as (_ & _ & Hraise & _).
    exact (Hraise (JSString "no") eq_refl).
Defined.

Lemma boolean_conversion_strict_witness :
  RJSValidatedValueToBoolean (JSNumber (S754_finite false 1 0)) empty_world =
    (Throws (invalid_argument "Value is not a boolean."), empty_world) /\
  RJSValidatedValueToBoolean (JSBoolean true) empty_world =
    (Returns (S754_finite false 1 0), empty_world).
Proof.
  split.
  - destruct (boolean_conversion_strict
                (JSNumber (S754_finite false 1 0)) empty_world) as [Hkind _].
    exact (Hkind eq_refl).
  - destruct (boolean_conversion_strict (JSBoolean true) empty_world)
      as [_ Hbool].
    destruct (Hbool true eq_refl) as [Hret _]. exact Hret.
Defined.

(* ===================================================================== *)
(** * Script errors *)
(* ===================================================================== *)

Lemma RJSMakeError_allocates (e : NativeException) (ctx : World) :
  RJSMakeError e ctx =
  (JSObject (next_object ctx),
   with_new_object ctx (error_object (what e) (raw_exception e))).
Proof. by destruct e. Qed.

Lemma RJSSetException_allocates (e : NativeException) (ctx : World) :
  RJSSetException e ctx =
  (Some (JSObject (next_object ctx)),
   with_new_object ctx (error_object (what e) (raw_exception e))).
Proof. unfold RJSSetException. by rewrite RJSMakeError_allocates. Qed.

Lemma lookup_new_object (ctx : World) (data : JSObjectData) :
  objects (with_new_object ctx data) !! next_object ctx = Some data.
Proof.
  unfold with_new_object, next_object. simpl. by apply list_lookup_middle.
Qed.

Lemma append_empty_r (s : string) : s +:+ "" = s.
Proof.
  induction s as [|c s IH]; [done|].
  change (String c (s +:+ "") = String c s). by rewrite IH.
Qed.

Lemma error_to_string_contains (message : string) :
  contains (error_to_string message) message.
Proof.
  unfold error_to_string, contains.
  destruct (String.eqb message "") eqn:Hempty.
  - apply String.eqb_eq in Hempty as ->. by exists "Error", "".
  - exists "Error: ", "". by rewrite append_empty_r.
Qed.

(** C8.  A native exception with message M, turned into a script error by
    [RJSMakeError] and rendered by [RJSStringForValue], gives a string that
    contains M; the same holds for the error [RJSSetException] leaves in
    the exception slot. *)
Theorem error_round_trip `{NumericText} (e : NativeException) (ctx : World) :
  contains
    (RJSStringForValue (snd (RJSMakeError e ctx)) (fst (RJSMakeError e ctx)))
    (what e) /\
  exists error,
    fst (RJSSetException e ctx) = Some error /\
    contains (RJSStringForValue (snd (RJSSetException e ctx)) error) (what e).
Proof.
  rewrite RJSSetException_allocates, RJSMakeError_allocates. simpl.
  assert (contains
            (RJSStringForValue
               (with_new_object ctx (error_object (what e) (raw_exception e)))
               (JSObject (next_object ctx))) (what e)) as Hround.
  { unfold RJSStringForValue, JSValueToStringCopy.
    rewrite lookup_new_object. apply error_to_string_contains. }
  split; [exact Hround|]. eexists. split; [reflexivity|exact Hround].
Qed.

(* ===================================================================== *)
(** * Adapters that route exceptions *)
(* ===================================================================== *)

(** C10.  The property setter adapter returns true whenever it returns:
    after a handler that returns, with the exception slot untouched, and
    after a handler that throws, with the exception slot holding the
    script error made from the exception.  No native exception leaves the
    adapter. *)
Theorem property_setter_reports_handled
    (METHOD : JSObjectRef -> JSValue -> Native unit)
    (object : JSObjectRef) (property : string) (value : JSValue)
    (ctx : World) :
  (forall e ctx', METHOD object value ctx = (Throws e, ctx') ->
     WRAP_PROPERTY_SETTER METHOD object property value ctx =
       (Returns (true, Some (JSObject (next_object ctx'))),
        with_new_object ctx' (error_object (what e) (raw_exception e)))) /\
  (forall u ctx', METHOD object value ctx = (Returns u, ctx') ->
     WRAP_PROPERTY_SETTER METHOD object property value ctx =
       (Returns (true, NULL), ctx')) /\
  (forall r ex ctx',
     WRAP_PROPERTY_SETTER METHOD object property value ctx =
       (Returns (r, ex), ctx') -> r = true) /\
  (forall e ctx',
     WRAP_PROPERTY_SETTER METHOD object property value ctx <> (Throws e, ctx')).
Proof.
  unfold WRAP_PROPERTY_SETTER, bind, WRAP_EXCEPTION, ret. repeat split.
  - intros e ctx' ->. by rewrite RJSSetException_allocates.
  - by intros u ctx' ->.
  - intros r ex ctx'. destruct (METHOD object value ctx) as [[u|e|] ctx1].
    + by intros [= <- _ _].
    + rewrite RJSSetException_allocates. by intros [= <- _ _].
    + discriminate.
  - intros e ctx'. destruct (METHOD object value ctx) as [[u|e'|] ctx1].
    + discriminate.
    + rewrite RJSSetException_allocates. discriminate.
    + discriminate.
Qed.

Lemma property_setter_reports_handled_witness :
  WRAP_PROPERTY_SETTER refusing_setter 0%nat "size" JSNull empty_world =
    (Returns (true, Some (JSObject 0%nat)),
     with_new_object empty_world (error_object "read-only" None)).
Proof.
  destruct (property_setter_reports_handled refusing_setter 0%nat "size"
              JSNull empty_world) as (Hthrow & _).
  exact (Hthrow (runtime_error "read-only") empty_world eq_refl).
Defined.

(** C7.  With 2 arguments where 3 are expected, argument-count validation
    throws [std::invalid_argument] with the message "Invalid arguments";
    with 3 where 3 are expected it throws nothing.  A method that
    validates its argument count first does nothing else when the
    validation fails: the adapter returns [NULL], leaves the script error
    in the exception slot and the context is otherwise as it was; when
    the count is right the rest of the method runs. *)
Theorem argument_count_gate :
  RJSValidateArgumentCount 2 3 None =
    Throws (invalid_argument "Invalid arguments") /\
  RJSValidateArgumentCount 3 3 None = Returns tt /\
  (forall (rest : JSObjectRef -> list JSValue -> NativeMethod)
          (expected : Z) (message : option string)
          (thisObject : JSObjectRef) (arguments : list JSValue) (ctx : World),
     Z.of_nat (length arguments) <> expected ->
     WRAP_CLASS_METHOD
       (fun this args =>
          after_argument_count (Z.of_nat (length args)) expected message
            (rest this args))
       thisObject arguments ctx =
     (Returns (NULL, Some (JSObject (next_object ctx))),
      with_new_object ctx
        (error_object (elvis message "Invalid arguments") None))) /\
  (forall (rest : JSObjectRef -> list JSValue -> NativeMethod)
          (expected : Z) (message : option string)
          (thisObject : JSObjectRef) (arguments : list JSValue) (ctx : World),
     Z.of_nat (length arguments) = expected ->
     WRAP_CLASS_METHOD
       (fun this args =>
          after_argument_count (Z.of_nat (length args)) expected message
            (rest this args))
       thisObject arguments ctx =
     WRAP_CLASS_METHOD rest thisObject arguments ctx).
Proof.
  split; [reflexivity|]. split; [reflexivity|]. split.
  - intros rest expected message thisObject arguments ctx Hcount.
    unfold WRAP_CLASS_METHOD, after_argument_count, RJSValidateArgumentCount.
    destruct (Z.of_nat (length arguments) =? expected) eqn:Heq; [lia|].
    simpl. reflexivity.
  - intros rest expected message thisObject arguments ctx Hcount.
    unfold WRAP_CLASS_METHOD, after_argument_count, RJSValidateArgumentCount.
    destruct (Z.of_nat (length arguments) =? expected) eqn:Heq; [|lia].
    reflexivity.
Qed.

Lemma argument_count_gate_witness :
  WRAP_CLASS_METHOD
    (fun this args =>
       after_argument_count (Z.of_nat (length args)) 3 None
         (making_method this args))
    0%nat [JSNull; JSUndefined] empty_world =
  (Returns (NULL, Some (JSObject 0%nat)),
   with_new_object empty_world (error_object "Invalid arguments" None)) /\
  WRAP_CLASS_METHOD
    (fun this args =>
       after_argument_count (Z.of_nat (length args)) 3 None
         (making_method this args))
    0%nat [JSNull; JSUndefined; JSNull] empty_world =
  (Returns (Some (JSObject 0%nat), NULL),
   with_new_object empty_world plain_object).
Proof.
  destruct argument_count_gate as (_ & _ & Hfail & Hpass). split.
  - exact (Hfail making_method 3 None 0%nat [JSNull; JSUndefined] empty_world
             ltac:(simpl; lia)).
  - rewrite (Hpass making_method 3 None 0%nat [JSNull; JSUndefined; JSNull]
               empty_world ltac:(simpl; lia)).
    reflexivity.
Defined.

(* ===================================================================== *)
(** * Finalization *)
(* ===================================================================== *)

(** C9.  Finalizing a wrapper object whose private slot holds a live
    handle deletes the handle and then sets the slot to null.  A second
    finalization of the same object returns normally and changes nothing:
    it deletes the null pointer, so no handle is deleted twice. *)
Theorem finalize_twice_is_safe
    (ctx : World) (object : JSObjectRef) (data : JSObjectData) :
  objects ctx !! object = Some data ->
  private_data data <> 0 ->
  private_data data ∈ allocated ctx ->
  RJSFinalize object ctx = (Returns tt, released ctx object data) /\
  (private_data data ∉ allocated (released ctx object data)) /\
  JSObjectGetPrivate (released ctx object data) object = 0 /\
  RJSFinalize object (released ctx object data) =
    (Returns tt, released ctx object data).
Proof.
  intros Hobj Hnonnull Hlive.
  assert (objects (released ctx object data) !! object
          = Some (with_private data 0)) as Hcleared.
  { simpl. apply list_lookup_insert_eq. by eapply lookup_lt_Some. }
  repeat split.
  - unfold RJSFinalize, bind, delete, JSObjectGetPrivate, JSObjectSetPrivate.
    rewrite Hobj.
    destruct (private_data data =? 0) eqn:Hzero; [lia|].
    destruct (decide (private_data data ∈ allocated ctx)); [|done].
    simpl. by rewrite Hobj.
  - simpl. intros [_ Hout]%elem_of_difference. apply Hout.
    by apply elem_of_singleton.
  - unfold JSObjectGetPrivate. by rewrite Hcleared.
  - unfold RJSFinalize, bind, delete, JSObjectGetPrivate, JSObjectSetPrivate.
    rewrite Hcleared. simpl.
    assert (<[object:=with_private data 0]> (objects ctx) !! object
            = Some (with_private data 0)) as -> by exact Hcleared.
    simpl. unfold released, set_objects. simpl.
    by rewrite list_insert_insert_eq.
Qed.

Lemma finalize_twice_is_safe_witness :
  RJSFinalize 0%nat wrapper_world =
    (Returns tt, released wrapper_world 0%nat wrapper_object) /\
  RJSFinalize 0%nat (released wrapper_world 0%nat wrapper_object) =
    (Returns tt, released wrapper_world 0%nat wrapper_object).
Proof.
  destruct (finalize_twice_is_safe wrapper_world 0%nat wrapper_object
              eq_refl ltac:(simpl; lia) ltac:(by vm_compute))
    as (Hfirst & _ & _ & Hsecond).
  split; [exact Hfirst|exact Hsecond].
Defined.

(* ===================================================================== *)
(** * Property slots *)
(* ===================================================================== *)

Lemma slot_lookup_cons
    (n k : string) (s : Slot) (l : list (string * Slot)) :
  slot_lookup n ((k, s) :: l) =
  if String.eqb k n then Some s else slot_lookup n l.
Proof. reflexivity. Qed.

Lemma slot_lookup_store_eq (n : string) (s : Slot) (l : list (string * Slot)) :
  slot_lookup n (slot_store n s l) = Some s.
Proof.
  induction l as [|[k old] l IH]; simpl.
  - by rewrite String.eqb_refl.
  - destruct (String.eqb k n) eqn:Hk; simpl; by rewrite Hk.
Qed.

Lemma slot_lookup_store_ne
    (n n' : string) (s : Slot) (l : list (string * Slot)) :
  n <> n' -> slot_lookup n' (slot_store n s l) = slot_lookup n' l.
Proof.
  intros Hne. induction l as [|[k old] l IH]; simpl.
  - destruct (String.eqb n n') eqn:Hn; [|done].
    by apply String.eqb_eq in Hn.
  - destruct (String.eqb k n) eqn:Hk; simpl.
    + apply String.eqb_eq in Hk as ->.
      destruct (String.eqb n n') eqn:Hn; [|done].
      by apply String.eqb_eq in Hn.
    + by rewrite IH.
Qed.

Lemma slot_store_data_only (n : string) (v : JSValue) (l : list (string * Slot)) :
  data_only l -> data_only (slot_store n (Data v) l).
Proof.
  intros Hl n' e. destruct (decide (n = n')) as [<-|Hne].
  - by rewrite slot_lookup_store_eq.
  - rewrite slot_lookup_store_ne by done. apply Hl.
Qed.

Lemma slot_lookup_names (n : string) (l : list (string * Slot)) :
  n ∈ slot_names l <-> is_Some (slot_lookup n l).
Proof.
  unfold slot_names. induction l as [|[k s] l IH]; simpl.
  - split; [by intros ?%elem_of_nil|by intros [? ?]].
  - rewrite elem_of_cons, IH.
    destruct (String.eqb k n) eqn:Hk.
    + apply String.eqb_eq in Hk as ->. split; [by eexists|by left].
    + apply String.eqb_neq in Hk. split; [|by right].
      intros [->|?]; done.
Qed.

Lemma slot_store_fresh (n : string) (s : Slot) (l : list (string * Slot)) :
  n ∉ slot_names l -> slot_store n s l = l ++ [(n, s)].
Proof.
  unfold slot_names. induction l as [|[k old] l IH]; simpl; [done|].
  intros Hfresh. apply not_elem_of_cons in Hfresh as [Hne Hfresh].
  destruct (String.eqb k n) eqn:Hk.
  - apply String.eqb_eq in Hk. congruence.
  - by rewrite IH.
Qed.

(** ** Assignments and the writes of the marshalling loop *)

Lemma assign_ordinary (n : string) (v : JSValue) (l : list (string * Slot)) :
  n <> "__proto__" -> assign n v l = slot_store n (Data v) l.
Proof.
  intros Hn. unfold assign. destruct (slot_lookup n l); [done|].
  destruct (String.eqb n "__proto__") eqn:Heq; [|done].
  by apply String.eqb_eq in Heq.
Qed.

Lemma slot_lookup_assign_ne
    (n n' : string) (v : JSValue) (l : list (string * Slot)) :
  n <> n' -> slot_lookup n' (assign n v l) = slot_lookup n' l.
Proof.
  intros Hne. unfold assign. destruct (slot_lookup n l).
  - by apply slot_lookup_store_ne.
  - destruct (String.eqb n "__proto__"); [done|].
    by apply slot_lookup_store_ne.
Qed.

Lemma assign_data_only (n : string) (v : JSValue) (l : list (string * Slot)) :
  data_only l -> data_only (assign n v l).
Proof.
  intros Hl. unfold assign. destruct (slot_lookup n l).
  - by apply slot_store_data_only.
  - destruct (String.eqb n "__proto__"); [done|].
    by apply slot_store_data_only.
Qed.

Lemma c_str_of_ordinary (n : string) :
  ordinary_name n = true -> c_str n = n /\ n <> "__proto__".
Proof.
  unfold ordinary_name. intros [Hproto Hnul]%andb_true_iff.
  split; [by apply String.eqb_eq|].
  intros ->. done.
Qed.

Lemma stores_lookup_other
    (names : list string) (values : list JSValue)
    (acc : list (string * Slot)) (n : string) :
  n ∉ names -> slot_lookup n (stores names values acc) = slot_lookup n acc.
Proof.
  revert values acc.
  induction names as [|m names IH]; intros [|v values] acc Hn; simpl; try done.
  apply not_elem_of_cons in Hn as [Hne Hn].
  rewrite IH by done. by apply slot_lookup_assign_ne.
Qed.

Lemma stores_lookup_last
    (names : list string) (values : list JSValue)
    (acc : list (string * Slot)) (i : nat) (n : string) (v : JSValue) :
  n <> "__proto__" ->
  names !! i = Some n -> values !! i = Some v ->
  (forall j n', (i < j)%nat -> names !! j = Some n' -> n' <> n) ->
  slot_lookup n (stores names values acc) = Some (Data v).
Proof.
  intros Hplain. revert values acc i.
  induction names as [|m names IH]; intros [|w values] acc i Hn Hv Hlast;
    try done.
  destruct i as [|i]; simpl in *.
  - simplify_eq. rewrite stores_lookup_other.
    + rewrite assign_ordinary by done. apply slot_lookup_store_eq.
    + intros [j Hj]%list_elem_of_lookup.
      by apply (Hlast (S j) n ltac:(lia)).
  - apply (IH values _ i); [done..|].
    intros j n' Hij Hj. apply (Hlast (S j) n'); [lia|done].
Qed.

Lemma stores_names
    (names : list string) (values : list JSValue)
    (acc : list (string * Slot)) (k : string) :
  length names = length values ->
  "__proto__" ∉ names ->
  k ∈ slot_names (stores names values acc) <-> k ∈ slot_names acc \/ k ∈ names.
Proof.
  revert values acc.
  induction names as [|m names IH]; intros [|v values] acc Hlen Hplain;
    simpl in *; try done.
  - rewrite elem_of_nil. tauto.
  - apply not_elem_of_cons in Hplain as [Hm Hplain].
    rewrite IH by (done || lia).
    rewrite assign_ordinary by done.
    rewrite elem_of_cons, !slot_lookup_names.
    destruct (decide (m = k)) as [->|Hne].
    + rewrite slot_lookup_store_eq. split; [|intros _; left; by eexists].
      intros _. right. by left.
    + rewrite slot_lookup_store_ne by done. split.
      * intros [?|?]; [by left|right; by right].
      * intros [?|[->|?]]; [by left|done|by right].
Qed.

Lemma stores_distinct
    (names : list string) (values : list JSValue) (acc : list (string * Slot)) :
  length names = length values -> NoDup names ->
  "__proto__" ∉ names ->
  (forall n, n ∈ names -> n ∉ slot_names acc) ->
  stores names values acc = acc ++ zip names (Data <$> values).
Proof.
  revert values acc.
  induction names as [|m names IH];
    intros [|v values] acc Hlen Hnodup Hplain Hfresh; simpl in *; try done.
  - by rewrite app_nil_r.
  - apply NoDup_cons in Hnodup as [Hm Hnodup].
    apply not_elem_of_cons in Hplain as [Hproto Hplain].
    rewrite assign_ordinary by done.
    rewrite slot_store_fresh by (apply Hfresh; by left).
    rewrite IH; [by rewrite <- app_assoc|lia|done|done|].
    intros n Hn. unfold slot_names. rewrite fmap_app, elem_of_app. simpl.
    intros [Hacc|Hhead%list_elem_of_singleton].
    + by apply (Hfresh n); [right|].
    + by subst.
Qed.

(* ===================================================================== *)
(** * Arrays *)
(* ===================================================================== *)

Lemma pretty_N_char_digit (x : N) :
  is_Some (digit_value (pretty_N_char x)).
Proof. unfold pretty_N_char. repeat case_match; by eexists. Qed.

Lemma pretty_N_go_starts_with_digit (x : N) (s : string) :
  (0 < x)%N -> starts_with_digit (pretty_N_go x s) = true.
Proof.
  revert s. induction (N.lt_wf_0 x) as [x _ IH]. intros s Hpos.
  rewrite pretty_N_go_step by done.
  destruct (decide (x `div` 10 = 0)%N) as [->|Hdiv].
  - rewrite pretty_N_go_0. simpl. apply bool_decide_eq_true.
    apply pretty_N_char_digit.
  - apply IH; [apply N.div_lt; lia|by apply N.neq_0_lt_0].
Qed.

Lemma pretty_nat_starts_with_digit (i : nat) :
  starts_with_digit (pretty i) = true.
Proof.
  unfold pretty, pretty_nat, pretty, pretty_N.
  destruct (decide (N.of_nat i = 0)%N); [done|].
  apply pretty_N_go_starts_with_digit. lia.
Qed.

Lemma pretty_nat_not_length (i : nat) : String.eqb "length" (pretty i) = false.
Proof.
  apply String.eqb_neq. intros Heq.
  pose proof (pretty_nat_starts_with_digit i) as Hdigit.
  by rewrite <- Heq in Hdigit.
Qed.

Lemma element_slots_lookup (elements : list JSValue) (k i : nat) (v : JSValue) :
  elements !! i = Some v ->
  slot_lookup (pretty (k + i)%nat) (element_slots k elements) = Some (Data v).
Proof.
  revert k i. induction elements as [|w elements IH]; intros k i Hv; [done|].
  destruct i as [|i]; simpl in *.
  - simplify_eq. by rewrite Nat.add_0_r, String.eqb_refl.
  - destruct (String.eqb (pretty k) (pretty (k + S i)%nat)) eqn:Hk.
    + apply String.eqb_eq, (inj pretty) in Hk. lia.
    + rewrite <- Nat.add_succ_comm. by apply IH.
Qed.

Lemma double_of_nat_to_size_t (n : nat) :
  Z.of_nat n <= SIZE_MAX ->
  double_to_size_t (double_of_nat n) = Some (Z.of_nat n).
Proof.
  intros Hfit. destruct n as [|n]; [done|].
  unfold double_of_nat, double_to_size_t.
  change (0 <=? 0) with true. cbv iota.
  assert (Z.pos (Pos.of_succ_nat n) * 2 ^ 0 = Z.of_nat (S n)) as -> by lia.
  destruct ((0 <=? Z.of_nat (S n)) && (Z.of_nat (S n) <=? SIZE_MAX))%bool
    eqn:Hrange; [done|].
  apply andb_false_iff in Hrange as [Hlo%Z.leb_gt|Hhi%Z.leb_gt]; lia.
Qed.

(** An object with the slots of an array literal is an array of the
    elements of the literal. *)
Lemma array_slots_is_array
    (ctx : World) (array : JSObjectRef) (data : JSObjectData)
    (elements : list JSValue) :
  objects ctx !! array = Some data ->
  slots data = array_slots elements ->
  Z.of_nat (length elements) <= UINT_MAX ->
  is_array_of ctx array elements.
Proof.
  intros Hobj Hslots Hfit. split; [|split; [done|]].
  - exists data, (double_of_nat (length elements)).
    split; [done|]. split; [by rewrite Hslots|].
    apply double_of_nat_to_size_t. unfold UINT_MAX, SIZE_MAX in *. lia.
  - exists data. split; [done|].
    intros i v Hv. rewrite Hslots. unfold array_slots.
    rewrite slot_lookup_cons, pretty_nat_not_length.
    by apply (element_slots_lookup elements 0 i).
Qed.

(* ===================================================================== *)
(** * Marshalling an array into a dictionary *)
(* ===================================================================== *)

Section Marshalling.
Context `{NumericText}.

Lemma size_t_is_number (d : spec_float) (n : Z) :
  double_to_size_t d = Some n -> isnan d = false.
Proof. by destruct d. Qed.

Lemma list_length_of_array (ctx : World) (array : JSObjectRef) (n : nat) :
  has_length ctx array n ->
  RJSValidatedListLength array ctx = (Returns (Z.of_nat n), ctx).
Proof.
  intros (data & d & Hobj & Hlen & Hsize).
  unfold RJSValidatedListLength, JSObjectGetProperty.
  rewrite Hobj, Hlen. simpl.
  unfold bind, RJSValidatedValueToNumber. simpl.
  by rewrite (size_t_is_number _ _ Hsize), Hsize.
Qed.

Lemma copy_properties_runs
    (array dict : JSObjectRef) (adata : JSObjectData)
    (remaining : list Property) (values : list JSValue)
    (i : nat) (ctx : World) (d : JSObjectData) :
  array <> dict ->
  objects ctx !! array = Some adata ->
  objects ctx !! dict = Some d ->
  data_only (slots d) ->
  length remaining = length values ->
  (forall j v, values !! j = Some v ->
     slot_lookup (pretty (i + j)%nat) (slots adata) = Some (Data v)) ->
  copy_properties remaining i array dict ctx =
  (Returns tt,
   set_objects ctx
     (<[dict := with_slots d (stores (key_of <$> remaining) values (slots d))]>
        (objects ctx))).
Proof.
  intros Hne. revert values i ctx d.
  induction remaining as [|p rest IH];
    intros [|v values] i ctx d Harr Hdict Hdata Hlen Hread; try done.
  - simpl. unfold ret. f_equal. destruct ctx as [os al]. unfold set_objects.
    simpl in *. f_equal. symmetry. apply list_insert_id.
    rewrite Hdict. by destruct d.
  - simpl.
    unfold JSObjectGetPropertyAtIndex, JSObjectGetProperty. rewrite Harr.
    rewrite <- (Nat.add_0_r i) at 1. rewrite (Hread 0%nat v eq_refl).
    unfold JSObjectSetProperty. rewrite Hdict.
    fold (key_of p).
    destruct (slot_lookup (key_of p) (slots d)) as [[old|e]|] eqn:Hslot;
      [|by destruct (Hdata (key_of p) e)|].
    all: rewrite (IH values (S i) _
                    (with_slots d (assign (key_of p) v (slots d))));
      [ unfold set_objects; simpl; by rewrite list_insert_insert_eq
      | simpl; by rewrite list_lookup_insert_ne
      | simpl; apply list_lookup_insert_eq; by eapply lookup_lt_Some
      | simpl; by apply assign_data_only
      | simpl in Hlen; lia
      | intros j w Hw; rewrite Nat.add_succ_comm; by apply (Hread (S j)) ].
Qed.

(** C3.  When the length of the array is not the number of properties of
    the schema, the marshaller throws the runtime error "Array must
    contain values for all object properties" and leaves the context as it
    was: no dictionary object exists afterwards. *)
Theorem dictionary_requires_matching_length
    (ctx : World) (object_schema : ObjectSchema) (array : JSObjectRef)
    (n : nat) :
  has_length ctx array n ->
  n <> length (properties object_schema) ->
  RJSDictForPropertyArray object_schema array ctx =
    (Throws (runtime_error
               "Array must contain values for all object properties"), ctx).
Proof.
  intros Harray Hlen. unfold RJSDictForPropertyArray, bind.
  rewrite (list_length_of_array _ _ _ Harray).
  destruct (Z.of_nat (length (properties object_schema)) =? Z.of_nat n)
    eqn:Heq; [lia|done].
Qed.

(** C4, amended.  When no name of the schema is [__proto__] or holds a
    NUL, and the array holds exactly as many elements as the schema has
    properties, each stored as a value so that reading it raises nothing,
    the marshaller returns a new dictionary object and changes nothing
    else.  The names of its properties are the names of the schema
    properties; under each name it holds the array element of that name's
    schema position, unmodified (of the last such position, should a name
    occur twice); and for distinct names its properties, in the order they
    were created, are the pairs of name and element in schema order. *)
Theorem dictionary_matches_schema
    (ctx : World) (object_schema : ObjectSchema) (array : JSObjectRef)
    (elements : list JSValue) :
  is_array_of ctx array elements ->
  length elements = length (properties object_schema) ->
  (forall p, p ∈ properties object_schema -> ordinary_name (name p) = true) ->
  exists dict : JSObjectData,
    RJSDictForPropertyArray object_schema array ctx =
      (Returns (next_object ctx), with_new_object ctx dict) /\
    (forall n, n ∈ slot_names (slots dict) <->
               n ∈ name <$> properties object_schema) /\
    (forall i p v,
       properties object_schema !! i = Some p -> elements !! i = Some v ->
       (forall j q, (i < j)%nat -> properties object_schema !! j = Some q ->
                    name q <> name p) ->
       JSObjectGetProperty (with_new_object ctx dict) (next_object ctx) (name p)
       = Normal v) /\
    (NoDup (name <$> properties object_schema) ->
     slots dict = zip (name <$> properties object_schema) (Data <$> elements)).
Proof.
  intros (Hlength & _ & adata & Harr & Hread) Hlen Hordinary.
  set (names := name <$> properties object_schema).
  assert (length names = length elements) as Hnames.
  { unfold names. by rewrite length_fmap. }
  assert (key_of <$> properties object_schema = names) as Hkeys.
  { unfold names. apply list_fmap_ext. intros i p Hp. unfold key_of.
    apply c_str_of_ordinary, Hordinary. by eapply list_elem_of_lookup_2. }
  assert ("__proto__" ∉ names) as Hplain.
  { unfold names. intros (p & Hname & Hp)%list_elem_of_fmap.
    destruct (c_str_of_ordinary _ (Hordinary p Hp)) as [_ Hne]. congruence. }
  exists (with_slots plain_object (stores names elements [])).
  split; [|split; [|split]].
  - unfold RJSDictForPropertyArray, bind.
    rewrite (list_length_of_array _ _ _ Hlength), Hlen, Z.eqb_refl. simpl.
    assert (array <> length (objects ctx)) as Hne.
    { apply lookup_lt_Some in Harr. lia. }
    rewrite (copy_properties_runs array _ adata _ elements 0 _ plain_object).
    + rewrite Hkeys.
      unfold ret, with_new_object, next_object, set_objects. simpl.
      do 3 f_equal.
      by rewrite insert_app_r_alt, Nat.sub_diag by lia.
    + done.
    + simpl. by apply lookup_app_l_Some.
    + simpl. by apply list_lookup_middle.
    + by intros n e.
    + done.
    + intros j v Hv. by apply Hread.
  - intros n. simpl. rewrite stores_names by done.
    rewrite elem_of_nil. tauto.
  - intros i p v Hp Hv Hlast.
    unfold JSObjectGetProperty. rewrite lookup_new_object. simpl.
    rewrite (stores_lookup_last names elements [] i (name p) v); [done| | |done|].
    + apply c_str_of_ordinary, Hordinary. by eapply list_elem_of_lookup_2.
    + unfold names. by rewrite list_lookup_fmap, Hp.
    + intros j n' Hij Hj. unfold names in Hj.
      rewrite list_lookup_fmap in Hj.
      destruct (properties object_schema !! j) as [q|] eqn:Hq; [|done].
      simplify_eq/=. by apply (Hlast j q).
  - intros Hnodup. simpl.
    rewrite stores_distinct; [done|done|done|done|].
    intros n _. apply not_elem_of_nil.
Qed.

End Marshalling.

(** C4, as stated, fails on the code.  An array of the length of the
    schema whose second element is an accessor that raises gets no
    dictionary: the marshaller throws.  A name that holds a NUL is written
    up to the NUL, and the name [__proto__] is written to the inherited
    setter and becomes no key, so in both runs the keys of the dictionary
    are not the names of the schema. *)
Lemma dictionary_matches_schema_counterexample :
  @RJSDictForPropertyArray blank_text person_schema 0%nat guarded_world =
    (Throws (@RJSException_new blank_text
               (with_new_object guarded_world
                  (with_slots plain_object [("name", Data (JSString "Ann"))]))
               (JSString "denied")),
     with_new_object guarded_world
       (with_slots plain_object [("name", Data (JSString "Ann"))])) /\
  @RJSDictForPropertyArray blank_text nul_schema 1%nat person_world =
    (Returns 2%nat,
     with_new_object person_world
       (with_slots plain_object [("na", Data (JSString "Ann"))])) /\
  @RJSDictForPropertyArray blank_text proto_schema 1%nat person_world =
    (Returns 2%nat, with_new_object person_world plain_object).
Proof. repeat split; reflexivity. Qed.

Lemma dictionary_requires_matching_length_witness :
  @RJSDictForPropertyArray blank_text person_schema 1%nat person_world =
    (Throws (runtime_error
               "Array must contain values for all object properties"),
     person_world).
Proof.
  apply (@dictionary_requires_matching_length blank_text person_world
           person_schema 1%nat 1%nat).
  - apply (array_slots_is_array person_world 1%nat short_array
             [JSString "Ann"]); [reflexivity|reflexivity|by vm_compute].
  - simpl. lia.
Defined.

Lemma dictionary_matches_schema_witness :
  exists dict : JSObjectData,
    @RJSDictForPropertyArray blank_text person_schema 0%nat person_world =
      (Returns 2%nat, with_new_object person_world dict) /\
    slots dict =
      [("name", Data (JSString "Ann"));
       ("age", Data (JSNumber (S754_finite false 5 3)))].
Proof.
  destruct (@dictionary_matches_schema blank_text person_world person_schema
              0%nat person_values) as (dict & Hrun & _ & _ & Hslots).
  - apply (array_slots_is_array person_world 0%nat person_array);
      [reflexivity|reflexivity|by vm_compute].
  - reflexivity.
  - intros p Hp. unfold person_schema in Hp. simpl in Hp.
    apply elem_of_cons in Hp as [->|Hp]; [reflexivity|].
    apply list_elem_of_singleton in Hp as ->. reflexivity.
  - exists dict. split; [exact Hrun|].
    apply Hslots. apply (bool_decide_unpack _). by vm_compute.
Defined.

(** Two runs outside the theorems above.  A name that occurs twice in the
    schema keeps the element of its last position; an element whose read
    raises ends the loop with the [RJSException] of line 335, after the
    dictionary was created and partly filled. *)
Example twin_names_keep_last :
  @RJSDictForPropertyArray blank_text twin_schema 0%nat person_world =
    (Returns 2%nat,
     with_new_object person_world
       (with_slots plain_object
          [("id", Data (JSNumber (S754_finite false 5 3)))])).
Proof. reflexivity. Qed.

Example raising_element_ends_loop :
  @RJSDictForPropertyArray blank_text person_schema 0%nat guarded_world =
    (Throws (RJSException "denied" (JSString "denied")),
     with_new_object guarded_world
       (with_slots plain_object [("name", Data (JSString "Ann"))])).
Proof. reflexivity. Qed.

(* ===================================================================== *)
(** * Numerals as indices *)
(* ===================================================================== *)

Lemma digit_value_pretty_N_char (d : N) :
  (d < 10)%N -> digit_value (pretty_N_char d) = Some (Z.of_N d).
Proof.
  intros Hd.
  assert (d = 0 \/ d = 1 \/ d = 2 \/ d = 3 \/ d = 4 \/ d = 5 \/ d = 6
          \/ d = 7 \/ d = 8 \/ d = 9)%N as Hcases by lia.
  repeat (destruct Hcases as [->|Hcases]; [reflexivity|]). by subst.
Qed.

Lemma read_digits_cons (c : ascii) (s : string) (acc d : Z) (seen : bool) :
  digit_value c = Some d ->
  read_digits (String c s) acc seen = read_digits s (10 * acc + d) true.
Proof. intros Hc. simpl. by rewrite Hc. Qed.

Lemma N_div_mod_10 (x : N) :
  Z.of_N x = 10 * Z.of_N (x `div` 10) + Z.of_N (x `mod` 10).
Proof.
  rewrite (N.div_mod x 10) at 1 by done.
  by rewrite N2Z.inj_add, N2Z.inj_mul.
Qed.

(** Reading the numeral of [x] multiplies what was read before by a power
    of ten and adds [x]. *)
Lemma read_digits_pretty_N_go (x : N) :
  (0 < x)%N ->
  exists m, forall s acc seen,
    read_digits (pretty_N_go x s) acc seen
    = read_digits s (acc * m + Z.of_N x) true.
Proof.
  induction (N.lt_wf_0 x) as [x _ IH]. intros Hpos.
  destruct (decide (x `div` 10 = 0)%N) as [Hsmall|Hbig].
  - exists 10. intros s acc seen.
    rewrite pretty_N_go_step, Hsmall, pretty_N_go_0 by done.
    rewrite (read_digits_cons _ _ _ (Z.of_N (x `mod` 10))).
    + f_equal. rewrite (N_div_mod_10 x), Hsmall. lia.
    + apply digit_value_pretty_N_char. by apply N.mod_lt.
  - destruct (IH (x `div` 10)%N) as [m Hm].
    { apply N.div_lt; lia. }
    { by apply N.neq_0_lt_0. }
    exists (m * 10). intros s acc seen.
    rewrite pretty_N_go_step, Hm by done.
    rewrite (read_digits_cons _ _ _ (Z.of_N (x `mod` 10))).
    + f_equal. rewrite (N_div_mod_10 x). lia.
    + apply digit_value_pretty_N_char. by apply N.mod_lt.
Qed.

Lemma pretty_N_go_app (x : N) (s t : string) :
  pretty_N_go x s +:+ t = pretty_N_go x (s +:+ t).
Proof.
  revert s. induction (N.lt_wf_0 x) as [x _ IH]. intros s.
  destruct (decide (0 < x)%N) as [Hpos|Hzero].
  - rewrite (pretty_N_go_step x s), (pretty_N_go_step x (s +:+ t)) by done.
    rewrite IH; [reflexivity|]. apply N.div_lt; lia.
  - assert (x = 0%N) as -> by lia. by rewrite !pretty_N_go_0.
Qed.

Lemma read_digits_stops (t : string) (acc : Z) :
  starts_with_digit t = false -> read_digits t acc true = Some acc.
Proof.
  destruct t as [|c t]; [done|]. simpl. intros Hc.
  destruct (digit_value c) as [d|]; [|done].
  apply bool_decide_eq_false in Hc. destruct Hc. by eexists.
Qed.

Lemma digit_is_no_space_no_sign (s : string) :
  starts_with_digit s = true -> skip_ws s = s /\ read_sign s = (false, s).
Proof.
  destruct s as [|c s]; [done|]. simpl. intros Hc.
  apply bool_decide_eq_true in Hc as [d Hd].
  destruct c as [[] [] [] [] [] [] [] []]; try discriminate Hd; done.
Qed.

(** The magnitude of a non-empty numeral followed by text that does not
    go on with a digit. *)
Lemma extract_magnitude (x : N) (t : string) :
  (0 < x)%N -> starts_with_digit t = false ->
  read_digits (pretty_N_go x t) 0 false = Some (Z.of_N x).
Proof.
  intros Hpos Ht. destruct (read_digits_pretty_N_go x Hpos) as [m Hm].
  by rewrite Hm, read_digits_stops.
Qed.

Lemma extract_long_pretty (z : Z) (t : string) :
  starts_with_digit t = false ->
  extract_long (pretty z +:+ t) =
  if ((LONG_MIN <=? z) && (z <=? LONG_MAX))%bool then Some z else None.
Proof.
  intros Ht. destruct z as [|p|p].
  - unfold extract_long. change (pretty 0 +:+ t) with (String "0" t).
    cbn [skip_ws isspace]. simpl.
    by rewrite read_digits_stops.
  - unfold pretty, pretty_Z, pretty, pretty_positive, pretty, pretty_N.
    destruct (decide (N.pos p = 0%N)); [done|].
    rewrite pretty_N_go_app. change ("" +:+ t) with t.
    unfold extract_long.
    destruct (digit_is_no_space_no_sign (pretty_N_go (N.pos p) t)) as [-> ->].
    { by apply pretty_N_go_starts_with_digit. }
    by rewrite extract_magnitude.
  - unfold pretty, pretty_Z, pretty, pretty_positive, pretty, pretty_N.
    destruct (decide (N.pos p = 0%N)); [done|].
    change (("-" +:+ pretty_N_go (N.pos p) "") +:+ t)
      with (String "-" (pretty_N_go (N.pos p) "" +:+ t)).
    rewrite pretty_N_go_app. change ("" +:+ t) with t.
    unfold extract_long. cbn [skip_ws]. 
    change (isspace "-") with false. cbv iota. cbn [read_sign].
    by rewrite extract_magnitude.
Qed.

(** X1.  Round trip between the decimal numeral and the parsed [long]:
    for every integer a [long] can hold, [stot<long>] reads its decimal
    numeral back as that integer. *)
Theorem stot_reads_numeral (z : Z) :
  LONG_MIN <= z <= LONG_MAX -> stot (pretty z) = Returns z.
Proof.
  intros [Hlo Hhi]. unfold stot.
  rewrite <- (append_empty_r (pretty z)) at 1.
  rewrite extract_long_pretty by done.
  destruct (LONG_MIN <=? z) eqn:H1; [|lia].
  destruct (z <=? LONG_MAX) eqn:H2; [done|lia].
Qed.

Lemma stot_reads_numeral_witness : stot (pretty (-2048)) = Returns (-2048).
Proof. apply stot_reads_numeral. by vm_compute. Defined.

(** X2.  Text after the numeral is ignored: a numeral followed by
    anything that does not go on with a digit parses to the integer of
    the numeral, so such a property name is taken as that index. *)
Theorem stot_ignores_trailing_text (z : Z) (t : string) :
  LONG_MIN <= z <= LONG_MAX -> starts_with_digit t = false ->
  stot (pretty z +:+ t) = Returns z.
Proof.
  intros [Hlo Hhi] Ht. unfold stot. rewrite extract_long_pretty by done.
  destruct (LONG_MIN <=? z) eqn:H1; [|lia].
  destruct (z <=? LONG_MAX) eqn:H2; [done|lia].
Qed.

Lemma stot_ignores_trailing_text_witness : stot "31px" = Returns 31.
Proof.
  apply (stot_ignores_trailing_text 31 "px"); [by vm_compute|reflexivity].
Defined.

(** X3.  A numeral outside the range of [long] is not a range error: the
    extraction fails, [stot<long>] throws [std::invalid_argument], and so
    does [RJSValidatedPositiveIndex], also when the numeral is negative. *)
Theorem numeral_beyond_long_is_unparsable (z : Z) :
  z < LONG_MIN \/ LONG_MAX < z ->
  stot (pretty z) =
    Throws (invalid_argument ("Cannot convert string '" +:+ pretty z +:+ "'")) /\
  RJSValidatedPositiveIndex (pretty z) =
    Throws (invalid_argument ("Cannot convert string '" +:+ pretty z +:+ "'")).
Proof.
  intros Hout.
  assert (stot (pretty z) =
          Throws (invalid_argument
                    ("Cannot convert string '" +:+ pretty z +:+ "'"))) as Hs.
  { unfold stot. rewrite <- (append_empty_r (pretty z)) at 1.
    rewrite extract_long_pretty by done.
    destruct (LONG_MIN <=? z) eqn:H1; destruct (z <=? LONG_MAX) eqn:H2;
      simpl; try done; lia. }
  split; [exact Hs|]. unfold RJSValidatedPositiveIndex. by rewrite Hs.
Qed.

Lemma numeral_beyond_long_is_unparsable_witness :
  RJSValidatedPositiveIndex "-9223372036854775809" =
    Throws (invalid_argument
              "Cannot convert string '-9223372036854775809'").
Proof.
  apply (numeral_beyond_long_is_unparsable (-9223372036854775809)).
  left. by vm_compute.
Defined.

(** X4.  [RJSValidatedPositiveIndex] has three outcomes and no other: an
    index between 0 and [LONG_MAX], the out-of-range error that quotes the
    string, or the conversion error that quotes the string. *)
Theorem positive_index_outcomes (indexStr : string) :
  (exists index, 0 <= index <= LONG_MAX /\
                 RJSValidatedPositiveIndex indexStr = Returns index) \/
  RJSValidatedPositiveIndex indexStr =
    Throws (out_of_range
              ("Index " +:+ indexStr +:+ " cannot be less than zero.")) \/
  RJSValidatedPositiveIndex indexStr =
    Throws (invalid_argument ("Cannot convert string '" +:+ indexStr +:+ "'")).
Proof.
  destruct (stot indexStr) as [index|e|] eqn:Hs.
  - pose proof (stot_fits_long _ _ Hs) as [_ Hhi].
    destruct (decide (0 <= index)) as [Hpos|Hneg].
    + left. exists index. split; [lia|]. by apply index_of_natural.
    + right. left. apply (index_of_negative _ index); [done|lia].
  - right. right. by apply (index_of_unparsable _ e).
  - by destruct (stot_defined indexStr).
Qed.

(** X5.  An access under the decimal numeral of an index that a [long]
    can hold reaches the native handler with that index, in the getter
    and in the setter. *)
Theorem numeral_reaches_handler
    (getter : JSObjectRef -> Z -> NativeMethod)
    (setter : JSObjectRef -> Z -> JSValue -> Native unit)
    (object : JSObjectRef) (index : Z) (value : JSValue) (ctx : World) :
  0 <= index <= LONG_MAX ->
  WRAP_INDEXED_GETTER getter object (pretty index) ctx =
    match getter object index ctx with
    | (Returns _, returnValue, ctx') => (Returns (returnValue, NULL), ctx')
    | (Throws e, _, ctx') => indexed_getter_catch e ctx'
    | (UndefinedBehaviour, _, ctx') => (UndefinedBehaviour, ctx')
    end /\
  WRAP_INDEXED_SETTER setter object (pretty index) value ctx =
    match setter object index value ctx with
    | (Returns _, ctx') => (Returns (true, NULL), ctx')
    | (Throws e, ctx') => indexed_setter_catch e ctx'
    | (UndefinedBehaviour, ctx') => (UndefinedBehaviour, ctx')
    end.
Proof.
  intros [Hlo Hhi].
  assert (RJSValidatedPositiveIndex (pretty index) = Returns index) as Hindex.
  { apply index_of_natural; [|done].
    unfold stot. rewrite <- (append_empty_r (pretty index)) at 1.
    rewrite extract_long_pretty by done.
    destruct (LONG_MIN <=? index) eqn:H1; [|unfold LONG_MIN in *; lia].
    destruct (index <=? LONG_MAX) eqn:H2; [done|lia]. }
  unfold WRAP_INDEXED_GETTER, WRAP_INDEXED_SETTER, RJSStringForJSString.
  by rewrite Hindex.
Qed.

Lemma numeral_reaches_handler_witness :
  WRAP_INDEXED_GETTER echo_getter 0%nat (pretty 12) empty_world =
    (Returns (Some (JSNumber (S754_finite false 12 0)), NULL), empty_world).
Proof.
  destruct (numeral_reaches_handler echo_getter idle_setter 0%nat 12 JSNull
              empty_world ltac:(by vm_compute)) as [Hget _].
  exact Hget.
Defined.

(* ===================================================================== *)
(** * Argument validators *)
(* ===================================================================== *)

(** X6.  The three argument validators agree with each other: a range
    whose bounds coincide is the exact-count check, a count accepted by a
    range is accepted by the at-least check of its lower bound and lies
    under the upper bound, a range whose upper bound is below its lower
    bound rejects every count, and the at-least check with bound zero
    accepts every count. *)
Theorem argument_validators_agree
    (argumentCount n min max : Z) (message : option string) :
  RJSValidateArgumentRange argumentCount n n message =
    RJSValidateArgumentCount argumentCount n message /\
  (RJSValidateArgumentRange argumentCount min max message = Returns tt ->
     RJSValidateArgumentCountIsAtLeast argumentCount min message = Returns tt /\
     argumentCount <= max) /\
  (max < min ->
     RJSValidateArgumentRange argumentCount min max message =
       Throws (invalid_argument (elvis message "Invalid arguments"))) /\
  (0 <= argumentCount ->
     RJSValidateArgumentCountIsAtLeast argumentCount 0 message = Returns tt).
Proof.
  unfold RJSValidateArgumentRange, RJSValidateArgumentCount,
    RJSValidateArgumentCountIsAtLeast.
  repeat split.
  - destruct (argumentCount <? n) eqn:H1; destruct (n <? argumentCount) eqn:H2;
      destruct (argumentCount =? n) eqn:H3; simpl; try done; lia.
  - destruct (argumentCount <? min) eqn:H1; [done|]. done.
  - destruct (argumentCount <? min) eqn:H1; [done|].
    destruct (max <? argumentCount) eqn:H2; [done|]. lia.
  - intros Hempty.
    destruct (argumentCount <? min) eqn:H1; [done|].
    destruct (max <? argumentCount) eqn:H2; [done|]. lia.
  - intros Hcount. destruct (argumentCount <? 0) eqn:H1; [lia|done].
Qed.

Lemma argument_validators_agree_witness :
  RJSValidateArgumentCountIsAtLeast 2 1 None = Returns tt /\
  RJSValidateArgumentRange 2 3 1 (Some "one to three") =
    Throws (invalid_argument "one to three").
Proof.
  split.
  - destruct (argument_validators_agree 2 0 1 3 None) as (_ & Hin & _).
    destruct (Hin eq_refl) as [Hleast _]. exact Hleast.
  - destruct (argument_validators_agree 2 0 3 1 (Some "one to three"))
      as (_ & _ & Hempty & _).
    exact (Hempty ltac:(lia)).
Defined.

(* ===================================================================== *)
(** * What the adapters hand to the engine *)
(* ===================================================================== *)

Lemma indexed_getter_catch_returns (e : NativeException) (ctx : World) :
  exists returnValue ex ctx',
    indexed_getter_catch e ctx = (Returns (returnValue, ex), ctx') /\
    (ex <> NULL -> returnValue = NULL).
Proof.
  destruct e; simpl; try rewrite RJSSetException_allocates;
    do 3 eexists; (split; [reflexivity|]); try done.
Qed.

Lemma indexed_setter_catch_returns (e : NativeException) (ctx : World) :
  exists error ctx',
    indexed_setter_catch e ctx = (Returns (false, Some error), ctx').
Proof.
  destruct e; simpl; try rewrite RJSSetException_allocates;
    by do 2 eexists.
Qed.

(** X8.  The method, constructor and property getter adapters return
    what the handler left in its return slot, also when the handler threw
    afterwards, and they write the exception slot exactly when the
    handler threw; without a throw the context is the handler's. *)
Theorem adapters_return_the_slot
    (method : JSObjectRef -> list JSValue -> NativeMethod)
    (maker : JSObjectRef -> list JSValue -> NativeConstructor)
    (reader : JSObjectRef -> NativeMethod)
    (object : JSObjectRef) (arguments : list JSValue)
    (property : string) (ctx : World) :
  (forall outcome returnValue ctx1,
     method object arguments ctx = (outcome, returnValue, ctx1) ->
     outcome <> UndefinedBehaviour ->
     exists ex ctx2,
       WRAP_CLASS_METHOD method object arguments ctx =
         (Returns (returnValue, ex), ctx2) /\
       (ex = NULL <-> outcome = Returns tt) /\
       (ex = NULL -> ctx2 = ctx1)) /\
  (forall outcome returnObject ctx1,
     maker object arguments ctx = (outcome, returnObject, ctx1) ->
     outcome <> UndefinedBehaviour ->
     exists ex ctx2,
       WRAP_CONSTRUCTOR maker object arguments ctx =
         (Returns (returnObject, ex), ctx2) /\
       (ex = NULL <-> outcome = Returns tt) /\
       (ex = NULL -> ctx2 = ctx1)) /\
  (forall outcome returnValue ctx1,
     reader object ctx = (outcome, returnValue, ctx1) ->
     outcome <> UndefinedBehaviour ->
     exists ex ctx2,
       WRAP_PROPERTY_GETTER reader object property ctx =
         (Returns (returnValue, ex), ctx2) /\
       (ex = NULL <-> outcome = Returns tt) /\
       (ex = NULL -> ctx2 = ctx1)).
Proof.
  repeat split.
  all: intros outcome slot ctx1 Hrun Hdefined.
  all: unfold WRAP_CLASS_METHOD, WRAP_CONSTRUCTOR, WRAP_PROPERTY_GETTER.
  all: rewrite Hrun; unfold bind, WRAP_EXCEPTION, lift, ret.
  all: destruct outcome as [[]|e|]; [| |done].
  all: rewrite ?RJSSetException_allocates; do 2 eexists.
  all: (split; [reflexivity|]); split; try done.
Qed.

Lemma adapters_return_the_slot_witness :
  exists ex ctx2,
    WRAP_CLASS_METHOD late_failure 0%nat [] empty_world =
      (Returns (Some (JSBoolean true), ex), ctx2) /\
    ex <> NULL.
Proof.
  destruct (adapters_return_the_slot late_failure
              (fun _ _ ctx => (Returns tt, None, ctx))
              (fun _ ctx => (Returns tt, NULL, ctx))
              0%nat [] "" empty_world) as (Hmethod & _ & _).
  destruct (Hmethod (Throws (runtime_error "too late")) (Some (JSBoolean true))
              empty_world eq_refl ltac:(discriminate))
    as (ex & ctx2 & Hrun & Hslot & _).
  exists ex, ctx2. split; [exact Hrun|].
  intros Hnull. apply Hslot in Hnull. discriminate.
Defined.

(** X9.  The indexed adapters never report an error and a result at
    once: the setter returns true exactly when it leaves the exception
    slot untouched, and the getter returns [NULL] whenever it writes the
    exception slot. *)
Theorem indexed_adapters_flag_errors
    (getter : JSObjectRef -> Z -> NativeMethod)
    (setter : JSObjectRef -> Z -> JSValue -> Native unit)
    (object : JSObjectRef) (property : string) (value : JSValue)
    (ctx : World) :
  (forall handled ex ctx',
     WRAP_INDEXED_SETTER setter object property value ctx =
       (Returns (handled, ex), ctx') ->
     (handled = true <-> ex = NULL)) /\
  (forall returnValue ex ctx',
     WRAP_INDEXED_GETTER getter object property ctx =
       (Returns (returnValue, ex), ctx') ->
     ex <> NULL -> returnValue = NULL).
Proof.
  split.
  - intros handled ex ctx'. unfold WRAP_INDEXED_SETTER.
    assert (forall e c,
              indexed_setter_catch e c = (Returns (handled, ex), ctx') ->
              (handled = true <-> ex = NULL)) as Hcatch.
    { intros e c Hrun.
      destruct (indexed_setter_catch_returns e c) as (error & c' & Hc).
      rewrite Hc in Hrun. by simplify_eq. }
    destruct (RJSValidatedPositiveIndex _) as [index|e|]; [|by apply Hcatch|done].
    destruct (setter object index value ctx) as [[u|e|] ctx1];
      [|by apply Hcatch|done].
    intros Hrun. by simplify_eq.
  - intros returnValue ex ctx'. unfold WRAP_INDEXED_GETTER.
    assert (forall e c,
              indexed_getter_catch e c = (Returns (returnValue, ex), ctx') ->
              ex <> NULL -> returnValue = NULL) as Hcatch.
    { intros e c Hrun.
      destruct (indexed_getter_catch_returns e c) as (rv & ex' & c' & Hc & Hnull).
      rewrite Hc in Hrun. by simplify_eq. }
    destruct (RJSValidatedPositiveIndex _) as [index|e|]; [|by apply Hcatch|done].
    destruct (getter object index ctx) as [[[u|e|] rv] ctx1];
      [|by apply Hcatch|done].
    intros Hrun Hex. by simplify_eq.
Qed.

Lemma indexed_adapters_flag_errors_witness :
  (false = true <-> Some (JSObject 0%nat) = NULL).
Proof.
  destruct (indexed_adapters_flag_errors idle_getter idle_setter 0%nat "abc"
              JSNull empty_world) as [Hset _].
  exact (Hset false (Some (JSObject 0%nat))
           (with_new_object empty_world (error_object "Invalid index" None))
           eq_refl).
Defined.

(* ===================================================================== *)
(** * Validated reads *)
(* ===================================================================== *)

Lemma element_slots_lookup_outside
    (elements : list JSValue) (k i : nat) :
  (i < k)%nat \/ (k + length elements <= i)%nat ->
  slot_lookup (pretty i) (element_slots k elements) = None.
Proof.
  revert k. induction elements as [|w elements IH]; intros k Hout; [done|].
  simpl in *. destruct (String.eqb (pretty k) (pretty i)) eqn:Hk.
  - apply String.eqb_eq, (inj pretty) in Hk. lia.
  - apply IH. lia.
Qed.

Lemma array_slots_lookup (elements : list JSValue) (i : nat) :
  slot_lookup (pretty i) (array_slots elements) = Data <$> elements !! i.
Proof.
  unfold array_slots. rewrite slot_lookup_cons, pretty_nat_not_length.
  destruct (elements !! i) as [v|] eqn:Hi.
  - by apply (element_slots_lookup elements 0 i).
  - apply element_slots_lookup_outside. right.
    apply lookup_ge_None in Hi. lia.
Qed.

Lemma array_element_read
    (ctx : World) (array : JSObjectRef) (data : JSObjectData)
    (elements : list JSValue) (index : nat) :
  objects ctx !! array = Some data ->
  slots data = array_slots elements ->
  JSObjectGetPropertyAtIndex ctx array index =
    Normal (default JSUndefined (elements !! index)).
Proof.
  intros Hobj Hslots. unfold JSObjectGetPropertyAtIndex, JSObjectGetProperty.
  rewrite Hobj, Hslots, array_slots_lookup.
  by destruct (elements !! index).
Qed.

Section Reads.
Context `{NumericText} `{Boxing}.

(** X12.  When [length] is a number other than NaN that does not
    truncate to a value a [size_t] can hold (a number at or below -1, a
    number of 2^64 or more, an infinity), the conversion in the [return]
    of [RJSValidatedListLength] has no defined behaviour. *)
Theorem list_length_undefined
    (object : JSObjectRef) (ctx : World) (d : spec_float) :
  JSObjectGetProperty ctx object "length" = Normal (JSNumber d) ->
  isnan d = false -> double_to_size_t d = None ->
  RJSValidatedListLength object ctx = (UndefinedBehaviour, ctx).
Proof.
  intros Hlen Hnan Hsize.
  unfold RJSValidatedListLength, bind, RJSValidatedValueToNumber, lift.
  rewrite Hlen. simpl. by rewrite Hnan, Hsize.
Qed.

(** X13.  Reading an array literal by position gives the element at a
    position inside the array and [undefined], without any error, at a
    position outside it; the context is unchanged. *)
Theorem array_read_by_position
    (ctx : World) (array : JSObjectRef) (data : JSObjectData)
    (elements : list JSValue) (index : nat) :
  objects ctx !! array = Some data ->
  slots data = array_slots elements ->
  RJSValidatedPropertyAtIndex array index ctx =
    (Returns (default JSUndefined (elements !! index)), ctx).
Proof.
  intros Hobj Hslots. unfold RJSValidatedPropertyAtIndex.
  by rewrite (array_element_read ctx array data elements index).
Qed.

(** X14.  [RJSValidatedObjectProperty] tells four cases apart.  A
    property that is absent or [undefined] is refused with "Object
    property '<name>' is undefined", a property that is [null] with
    "Value is not an object." (in both cases with the caller's message
    when one is given), a property whose read raises with the
    [RJSException] of that script exception, and a property that holds an
    object gives that object and leaves the context as it was. *)
Theorem object_property_outcomes
    (object : JSObjectRef) (property : string) (err : option string)
    (ctx : World) :
  (JSObjectGetProperty ctx object property = Normal JSUndefined ->
     RJSValidatedObjectProperty object property err ctx =
       (Throws (runtime_error
                  (elvis err ("Object property '" +:+ property
                              +:+ "' is undefined"))), ctx)) /\
  (JSObjectGetProperty ctx object property = Normal JSNull ->
     RJSValidatedObjectProperty object property err ctx =
       (Throws (runtime_error (elvis err "Value is not an object.")), ctx)) /\
  (forall exception,
     JSObjectGetProperty ctx object property = Raised exception ->
     RJSValidatedObjectProperty object property err ctx =
       (Throws (RJSException_new ctx exception), ctx)) /\
  (forall o,
     JSObjectGetProperty ctx object property = Normal (JSObject o) ->
     RJSValidatedObjectProperty object property err ctx = (Returns o, ctx)).
Proof.
  unfold RJSValidatedObjectProperty, bind, RJSValidatedPropertyValue,
    RJSValidatedValueToObject, throw, RJSStringForJSString.
  repeat split.
  - by intros ->.
  - by intros ->.
  - by intros exception ->.
  - by intros o ->.
Qed.

(** X15.  [RJSValidatedObjectAtIndex] has no test for [undefined]: at a
    position outside an array literal, and at a position that holds
    [null], it throws "Value is not an object."; at a position that holds
    an object it returns that object. *)
Theorem object_at_index_outcomes
    (ctx : World) (array : JSObjectRef) (data : JSObjectData)
    (elements : list JSValue) (index : nat) :
  objects ctx !! array = Some data ->
  slots data = array_slots elements ->
  ((length elements <= index)%nat \/ elements !! index = Some JSNull ->
     RJSValidatedObjectAtIndex array index ctx =
       (Throws (runtime_error "Value is not an object."), ctx)) /\
  (forall o, elements !! index = Some (JSObject o) ->
     RJSValidatedObjectAtIndex array index ctx = (Returns o, ctx)).
Proof.
  intros Hobj Hslots.
  unfold RJSValidatedObjectAtIndex, bind, RJSValidatedPropertyAtIndex.
  rewrite (array_element_read ctx array data elements index Hobj Hslots).
  split.
  - intros [Hout|Hnull].
    + apply lookup_ge_None in Hout. by rewrite Hout.
    + by rewrite Hnull.
  - intros o Ho. by rewrite Ho.
Qed.

End Reads.

(* ===================================================================== *)
(** * Finalization and the other objects *)
(* ===================================================================== *)

Lemma finalize_live
    (ctx : World) (object : JSObjectRef) (data : JSObjectData) :
  objects ctx !! object = Some data ->
  private_data data <> 0 ->
  private_data data ∈ allocated ctx ->
  RJSFinalize object ctx = (Returns tt, released ctx object data).
Proof.
  intros Hobj Hnonnull Hlive.
  unfold RJSFinalize, bind, delete, JSObjectGetPrivate, JSObjectSetPrivate.
  rewrite Hobj.
  destruct (private_data data =? 0) eqn:Hzero; [lia|].
  destruct (decide (private_data data ∈ allocated ctx)); [|done].
  simpl. by rewrite Hobj.
Qed.

Lemma finalize_dangling
    (ctx : World) (object : JSObjectRef) (data : JSObjectData) :
  objects ctx !! object = Some data ->
  private_data data <> 0 ->
  private_data data ∉ allocated ctx ->
  RJSFinalize object ctx = (UndefinedBehaviour, ctx).
Proof.
  intros Hobj Hnonnull Hdead.
  unfold RJSFinalize, bind, delete, JSObjectGetPrivate.
  rewrite Hobj.
  destruct (private_data data =? 0) eqn:Hzero; [lia|].
  by destruct (decide (private_data data ∈ allocated ctx)).
Qed.

(** X16.  Finalizing an object touches that object only: every other
    object is as before, the properties of the object itself are kept,
    and no handle other than the object's own leaves the set of live
    allocations.  When the finalizer returns, [RJSGetInternal] of the
    object is null; it never throws. *)
Theorem finalize_touches_one_object
    (ctx ctx' : World) (object : JSObjectRef) (outcome : Completion unit) :
  RJSFinalize object ctx = (outcome, ctx') ->
  (forall other, other <> object ->
     objects ctx' !! other = objects ctx !! other) /\
  slots <$> objects ctx' !! object = slots <$> objects ctx !! object /\
  (forall p, p <> RJSGetInternal ctx object ->
     (p ∈ allocated ctx' <-> p ∈ allocated ctx)) /\
  (outcome = Returns tt -> RJSGetInternal ctx' object = 0) /\
  (forall e, outcome <> Throws e).
Proof.
  unfold RJSFinalize, bind, delete, RJSGetInternal, JSObjectGetPrivate,
    JSObjectSetPrivate.
  destruct (objects ctx !! object) as [data|] eqn:Hobj.
  - assert (object < length (objects ctx))%nat as Hlt
        by (by eapply lookup_lt_Some).
    destruct (private_data data =? 0) eqn:Hzero.
    + rewrite Hobj. simpl. intros [= <- <-]. simpl.
      split; [|split; [|split; [|split]]]; try done.
      * intros other Hne. by rewrite list_lookup_insert_ne.
      * by rewrite list_lookup_insert_eq.
      * intros _. by rewrite list_lookup_insert_eq.
    + destruct (decide (private_data data ∈ allocated ctx)) as [Hlive|Hdead].
      * simpl. rewrite Hobj. simpl. intros [= <- <-]. simpl.
        split; [|split; [|split; [|split]]]; try done.
        -- intros other Hne. by rewrite list_lookup_insert_ne.
        -- by rewrite list_lookup_insert_eq.
        -- intros p Hp. rewrite elem_of_difference, elem_of_singleton. tauto.
        -- intros _. by rewrite list_lookup_insert_eq.
      * intros [= <- <-]. rewrite Hobj. done.
  - simpl. rewrite Hobj. simpl. intros [= <- <-]. rewrite Hobj. done.
Qed.

(** X17.  The finalizer relies on each handle belonging to one object:
    when two objects hold the same live handle, finalizing the first
    deletes it and finalizing the second deletes it again, which has no
    defined behaviour. *)
Theorem shared_handle_is_deleted_twice
    (ctx : World) (first second : JSObjectRef) (d1 d2 : JSObjectData) :
  first <> second ->
  objects ctx !! first = Some d1 ->
  objects ctx !! second = Some d2 ->
  private_data d1 = private_data d2 ->
  private_data d1 <> 0 ->
  private_data d1 ∈ allocated ctx ->
  (RJSFinalize first ;; RJSFinalize second) ctx =
    (UndefinedBehaviour, released ctx first d1).
Proof.
  intros Hne H1 H2 Hshared Hnonnull Hlive. unfold bind.
  rewrite (finalize_live ctx first d1) by done.
  apply (finalize_dangling _ second d2).
  - simpl. by rewrite list_lookup_insert_ne.
  - congruence.
  - simpl. rewrite <- Hshared.
    intros [_ Hout]%elem_of_difference. apply Hout. by apply elem_of_singleton.
Qed.

(** X18.  Finalizers of different objects with different live handles do
    not interfere: run in either order they return and leave the same
    context, in which both handles are released and both private slots
    are null. *)
Theorem finalizers_commute
    (ctx : World) (first second : JSObjectRef) (d1 d2 : JSObjectData) :
  first <> second ->
  objects ctx !! first = Some d1 ->
  objects ctx !! second = Some d2 ->
  private_data d1 <> private_data d2 ->
  private_data d1 <> 0 -> private_data d2 <> 0 ->
  private_data d1 ∈ allocated ctx ->
  private_data d2 ∈ allocated ctx ->
  (RJSFinalize first ;; RJSFinalize second) ctx =
    (Returns tt, released (released ctx first d1) second d2) /\
  (RJSFinalize second ;; RJSFinalize first) ctx =
    (Returns tt, released (released ctx first d1) second d2).
Proof.
  intros Hne H1 H2 Hdistinct Hn1 Hn2 Hl1 Hl2. unfold bind. split.
  - rewrite (finalize_live ctx first d1) by done.
    apply finalize_live; [|done|].
    + simpl. by rewrite list_lookup_insert_ne.
    + simpl. apply elem_of_difference. split; [done|].
      rewrite elem_of_singleton. congruence.
  - rewrite (finalize_live ctx second d2) by done.
    rewrite (finalize_live _ first d1); [|simpl; by rewrite list_lookup_insert_ne
                                          |done|].
    + f_equal. unfold released. simpl. f_equal.
      * by apply list_insert_insert_ne.
      * apply set_eq. intros p. rewrite !elem_of_difference. tauto.
    + simpl. apply elem_of_difference. split; [done|].
      rewrite elem_of_singleton. congruence.
Qed.

(* ===================================================================== *)
(** * The marshaller and an element that raises *)
(* ===================================================================== *)

Section Frame.
Context `{NumericText}.

Lemma copy_properties_raises
    (array dict : JSObjectRef) (adata : JSObjectData)
    (before : list Property) (p : Property) (after : list Property)
    (values : list JSValue) (exception : JSValue)
    (i : nat) (ctx : World) (d : JSObjectData) :
  array <> dict ->
  objects ctx !! array = Some adata ->
  objects ctx !! dict = Some d ->
  data_only (slots d) ->
  length before = length values ->
  (forall j v, values !! j = Some v ->
     slot_lookup (pretty (i + j)%nat) (slots adata) = Some (Data v)) ->
  slot_lookup (pretty (i + length values)%nat) (slots adata)
    = Some (Accessor exception) ->
  copy_properties (before ++ p :: after) i array dict ctx =
  (Throws
     (RJSException_new
        (set_objects ctx
           (<[dict := with_slots d (stores (key_of <$> before) values (slots d))]>
              (objects ctx)))
        exception),
   set_objects ctx
     (<[dict := with_slots d (stores (key_of <$> before) values (slots d))]>
        (objects ctx))).
Proof.
  intros Hne. revert values i ctx d.
  induction before as [|q rest IH];
    intros [|v values] i ctx d Harr Hdict Hdata Hlen Hread Hraise; try done.
  - simpl in *. rewrite Nat.add_0_r in Hraise.
    unfold JSObjectGetPropertyAtIndex, JSObjectGetProperty.
    rewrite Harr, Hraise.
    assert (set_objects ctx (<[dict:=with_slots d (slots d)]> (objects ctx))
            = ctx) as ->; [|done].
    destruct ctx as [os al]. unfold set_objects. simpl in *. f_equal.
    apply list_insert_id. rewrite Hdict. by destruct d.
  - simpl.
    unfold JSObjectGetPropertyAtIndex, JSObjectGetProperty. rewrite Harr.
    rewrite <- (Nat.add_0_r i) at 1. rewrite (Hread 0%nat v eq_refl).
    unfold JSObjectSetProperty. rewrite Hdict.
    fold (key_of q).
    destruct (slot_lookup (key_of q) (slots d)) as [[old|e]|] eqn:Hslot;
      [|by destruct (Hdata (key_of q) e)|].
    all: rewrite (IH values (S i) _
                    (with_slots d (assign (key_of q) v (slots d))));
      [ unfold set_objects; simpl; by rewrite list_insert_insert_eq
      | simpl; by rewrite list_lookup_insert_ne
      | simpl; apply list_lookup_insert_eq; by eapply lookup_lt_Some
      | simpl; by apply assign_data_only
      | simpl in Hlen; lia
      | intros j w Hw; rewrite Nat.add_succ_comm; by apply (Hread (S j))
      | simpl in Hraise; by rewrite Nat.add_succ_comm ].
Qed.

(** X20.  When the read of an array element raises a script exception,
    the marshaller throws the [RJSException] that wraps it.  The elements
    before it were copied by then: the context holds one more object, the
    dictionary filled up to that position, which is not returned. *)
Theorem marshaller_rethrows_element_error
    (ctx : World) (array : JSObjectRef) (adata : JSObjectData)
    (before : list Property) (p : Property) (after : list Property)
    (values : list JSValue) (exception : JSValue) :
  objects ctx !! array = Some adata ->
  has_length ctx array (length (before ++ p :: after)) ->
  length before = length values ->
  (forall j v, values !! j = Some v ->
     slot_lookup (pretty j) (slots adata) = Some (Data v)) ->
  slot_lookup (pretty (length values)) (slots adata)
    = Some (Accessor exception) ->
  RJSDictForPropertyArray {| properties := before ++ p :: after |} array ctx =
  (Throws
     (RJSException_new
        (with_new_object ctx
           (with_slots plain_object (stores (key_of <$> before) values [])))
        exception),
   with_new_object ctx
     (with_slots plain_object (stores (key_of <$> before) values []))).
Proof.
  intros Harr Hlength Hlen Hread Hraise.
  unfold RJSDictForPropertyArray, bind.
  rewrite (list_length_of_array _ _ _ Hlength). cbn [properties].
  rewrite Z.eqb_refl. simpl.
  assert (array <> length (objects ctx)) as Hne.
  { apply lookup_lt_Some in Harr. lia. }
  rewrite (copy_properties_raises array _ adata before p after values
             exception 0 _ plain_object); try done.
  - unfold with_new_object, next_object, set_objects. simpl.
    by rewrite insert_app_r_alt, Nat.sub_diag by lia.
  - simpl. by apply lookup_app_l_Some.
  - simpl. by apply list_lookup_middle.
Qed.

End Frame.

Lemma list_length_undefined_witness :
  @RJSValidatedListLength blank_text 0%nat odd_lengths_world =
    (UndefinedBehaviour, odd_lengths_world).
Proof.
  exact (@list_length_undefined blank_text 0%nat odd_lengths_world
           (S754_finite true 1 0) eq_refl eq_refl eq_refl).
Defined.

Lemma array_read_by_position_witness :
  @RJSValidatedPropertyAtIndex blank_text 2%nat 1%nat holder_world =
    (Returns JSNull, holder_world) /\
  @RJSValidatedPropertyAtIndex blank_text 2%nat 5%nat holder_world =
    (Returns JSUndefined, holder_world).
Proof.
  split.
  - exact (@array_read_by_position blank_text holder_world 2%nat roster_array
             roster_values 1%nat eq_refl eq_refl).
  - exact (@array_read_by_position blank_text holder_world 2%nat roster_array
             roster_values 5%nat eq_refl eq_refl).
Defined.

Lemma object_property_outcomes_witness :
  @RJSValidatedObjectProperty blank_text plain_boxing 0%nat "age" None
     holder_world =
    (Throws (runtime_error "Object property 'age' is undefined"),
     holder_world) /\
  @RJSValidatedObjectProperty blank_text plain_boxing 0%nat "pet"
     (Some "no pet") holder_world =
    (Throws (runtime_error "no pet"), holder_world) /\
  @RJSValidatedObjectProperty blank_text plain_boxing 0%nat "tax" None
     holder_world =
    (Throws (RJSException "denied" (JSString "denied")), holder_world) /\
  @RJSValidatedObjectProperty blank_text plain_boxing 0%nat "owner" None
     holder_world = (Returns 1%nat, holder_world).
Proof.
  split; [|split; [|split]].
  - destruct (@object_property_outcomes blank_text plain_boxing 0%nat "age"
                None holder_world) as (Hmissing & _).
    exact (Hmissing eq_refl).
  - destruct (@object_property_outcomes blank_text plain_boxing 0%nat "pet"
                (Some "no pet") holder_world) as (_ & Hnull & _).
    exact (Hnull eq_refl).
  - destruct (@object_property_outcomes blank_text plain_boxing 0%nat "tax"
                None holder_world) as (_ & _ & Hraise & _).
    exact (Hraise (JSString "denied") eq_refl).
  - destruct (@object_property_outcomes blank_text plain_boxing 0%nat "owner"
                None holder_world) as (_ & _ & _ & Hobject).
    exact (Hobject 1%nat eq_refl).
Defined.

Lemma object_at_index_outcomes_witness :
  @RJSValidatedObjectAtIndex blank_text plain_boxing 2%nat 2%nat holder_world =
    (Throws (runtime_error "Value is not an object."), holder_world) /\
  @RJSValidatedObjectAtIndex blank_text plain_boxing 2%nat 0%nat holder_world =
    (Returns 1%nat, holder_world).
Proof.
  destruct (@object_at_index_outcomes blank_text plain_boxing holder_world
              2%nat roster_array roster_values 2%nat eq_refl eq_refl)
    as [Hout _].
  destruct (@object_at_index_outcomes blank_text plain_boxing holder_world
              2%nat roster_array roster_values 0%nat eq_refl eq_refl)
    as [_ Hobject].
  split.
  - apply Hout. left. simpl. lia.
  - exact (Hobject 1%nat eq_refl).
Defined.

Lemma finalize_touches_one_object_witness :
  RJSGetInternal (released wrappers_world 0%nat wrapper_object) 0%nat = 0 /\
  objects (released wrappers_world 0%nat wrapper_object) !! 1%nat =
    objects wrappers_world !! 1%nat.
Proof.
  destruct (finalize_touches_one_object wrappers_world
              (released wrappers_world 0%nat wrapper_object) 0%nat (Returns tt))
    as (Hothers & _ & _ & Hnull & _).
  - apply finalize_live; [reflexivity|by vm_compute|by vm_compute].
  - split; [exact (Hnull eq_refl)|]. apply Hothers. lia.
Defined.

Lemma shared_handle_is_deleted_twice_witness :
  (RJSFinalize 0%nat ;; RJSFinalize 2%nat) wrappers_world =
    (UndefinedBehaviour, released wrappers_world 0%nat wrapper_object).
Proof.
  apply (shared_handle_is_deleted_twice wrappers_world 0%nat 2%nat
           wrapper_object wrapper_object); try reflexivity; by vm_compute.
Defined.

Lemma finalizers_commute_witness :
  (RJSFinalize 0%nat ;; RJSFinalize 1%nat) wrappers_world =
  (RJSFinalize 1%nat ;; RJSFinalize 0%nat) wrappers_world.
Proof.
  destruct (finalizers_commute wrappers_world 0%nat 1%nat
              wrapper_object other_wrapper) as [-> ->];
    try reflexivity; by vm_compute.
Defined.

Lemma marshaller_rethrows_element_error_witness :
  @RJSDictForPropertyArray blank_text person_schema 0%nat guarded_world =
    (Throws (RJSException "denied" (JSString "denied")),
     with_new_object guarded_world
       (with_slots plain_object [("name", Data (JSString "Ann"))])).
Proof.
  apply (@marshaller_rethrows_element_error blank_text guarded_world 0%nat
           guarded_array [ {| name := "name" |} ] {| name := "age" |} []
           [JSString "Ann"] (JSString "denied")); try reflexivity.
  - exists guarded_array, (double_of_nat 2). by repeat split.
  - intros [|j] v; [by intros [= <-]|done].
Defined.
